(** * Real-time connection registry, broadcast engine and message dispatcher

    A shallow embedding of [backend/app/services/websocket_manager.py]:
    the [ConnectionManager] class (registry indexes and fan-out), the
    [WebSocketService] dispatcher with its acknowledge, ping and analytics
    handlers, and the sensor-update publisher.

    Conventions.
    - A [WebSocket] is an opaque handle; Python hashes it by identity, so
      it is a [positive] here.
    - A Python [dict] used as an index is a [gmap], a Python [set] a
      [gset]; iterating a set visits [elements] of it, in an order no
      statement below depends on.
    - [async]/[await] is sequential composition: one coroutine runs from
      call to return, interleavings with other tasks are not modelled.
    - Python exceptions of class [Exception] are values of type
      [Exception]; mutations made before a [raise] persist, so a
      computation maps a world to an outcome and a world.
    - Whether [accept] or [send_text] raises is decided by the peer: the
      world carries it as a function of the connection and the message.
      Every call made on a websocket is recorded on the wire.
    - Logging has no effect on the state and is left out.
    - A [float] is an exact rational of [Q]; rounding is not modelled. *)

From Stdlib Require Import QArith.
From stdpp Require Import gmap strings list fin_maps pretty sorting.
Close Scope Q_scope.
Open Scope Z_scope.
#[local] Set Warnings "-register-all,-notation-for-abbreviation,-clear-no-such-hyp".

(** ** Python values *)

(** What [json.loads] produces and [json.dumps] accepts. *)
Inductive json :=
| JNull
| JBool (b : bool)
| JInt (z : Z)
| JFloat (q : Q)
| JStr (s : string)
| JList (l : list json)
| JObj (kv : list (string * json)).

(** A message is a [dict] with string keys, in insertion order. *)
Notation Message := (list (string * json)) (only parsing).

Notation WebSocket := positive (only parsing).

(** [d.get(key)]: [None] when the key is missing. *)
Fixpoint dict_get (key : string) (d : Message) : option json :=
  match d with
  | [] => None
  | (k, v) :: rest => if decide (k = key) then Some v else dict_get key rest
  end.

(** [d.get(key, default)]. *)
Definition dict_get_default (key : string) (dflt : json) (d : Message) : json :=
  default dflt (dict_get key d).

(** Truth value of an [Optional[int]]: [None] and [0] are falsy. *)
Definition truthy_int (o : option Z) : bool :=
  match o with
  | Some z => bool_decide (z ≠ 0)
  | None => false
  end.

(** Truth value of an [Optional[str]]: [None] and [""] are falsy. *)
Definition truthy_str (o : option string) : bool :=
  match o with
  | Some s => bool_decide (s ≠ "")
  | None => false
  end.

(** ** ConnectionManager: the registry *)

Record ConnectionManager := {
  (* Active connections: user_id -> set of websockets *)
  active_connections : gmap Z (gset WebSocket);
  (* Role-based connections: role_name -> set of websockets *)
  role_connections : gmap string (gset WebSocket);
  (* Channel subscriptions: channel -> set of websockets *)
  channel_subscriptions : gmap string (gset WebSocket);
  (* WebSocket to user mapping *)
  ws_to_user : gmap WebSocket Z;
  (* WebSocket to role mapping *)
  ws_to_role : gmap WebSocket string
}.

(** [ConnectionManager.__init__]. *)
Definition new_manager : ConnectionManager :=
  {| active_connections := ∅; role_connections := ∅;
     channel_subscriptions := ∅; ws_to_user := ∅; ws_to_role := ∅ |}.

Section Index.
Context `{Countable K}.

(** [if k not in index: index[k] = set()] then [index[k].add(ws)]. *)
Definition index_add (k : K) (ws : WebSocket)
    (index : gmap K (gset WebSocket)) : gmap K (gset WebSocket) :=
  let index' :=
    match index !! k with
    | None => <[k := ∅]> index
    | Some _ => index
    end in
  alter (λ s, {[ws]} ∪ s) k index'.

(** Under the guard [k in index]:
    [index[k].discard(ws)] then [if not index[k]: del index[k]]. *)
Definition index_discard (k : K) (ws : WebSocket)
    (index : gmap K (gset WebSocket)) : gmap K (gset WebSocket) :=
  match index !! k with
  | None => index
  | Some s =>
      let s' := s ∖ {[ws]} in
      if decide (s' = ∅) then delete k index else <[k := s']> index
  end.

(** [ws in index[k]], false when the key is missing. *)
Definition index_mem (k : K) (ws : WebSocket)
    (index : gmap K (gset WebSocket)) : bool :=
  match index !! k with
  | Some s => bool_decide (ws ∈ s)
  | None => false
  end.

(** Some set of the index holds [ws]. *)
Definition index_holds (ws : WebSocket)
    (index : gmap K (gset WebSocket)) : Prop :=
  ∃ k s, index !! k = Some s ∧ ws ∈ s.
End Index.

(** The registry mutation of [connect] (lines 30-42): insertion into the
    by-user and by-role indexes and both reverse mappings. *)
Definition register (websocket : WebSocket) (user_id : Z) (role : string)
    (m : ConnectionManager) : ConnectionManager :=
  {| active_connections := index_add user_id websocket (active_connections m);
     role_connections := index_add role websocket (role_connections m);
     channel_subscriptions := channel_subscriptions m;
     ws_to_user := <[websocket := user_id]> (ws_to_user m);
     ws_to_role := <[websocket := role]> (ws_to_role m) |}.

(** [ConnectionManager.disconnect]. *)
Definition disconnect (websocket : WebSocket)
    (m : ConnectionManager) : ConnectionManager :=
  let user_id := ws_to_user m !! websocket in
  let role := ws_to_role m !! websocket in
  {| (* if user_id and user_id in self.active_connections: ... *)
     active_connections :=
       match user_id with
       | Some u =>
           if truthy_int user_id
           then index_discard u websocket (active_connections m)
           else active_connections m
       | None => active_connections m
       end;
     (* if role and role in self.role_connections: ... *)
     role_connections :=
       match role with
       | Some r =>
           if truthy_str role
           then index_discard r websocket (role_connections m)
           else role_connections m
       | None => role_connections m
       end;
     (* for channel, websockets in self.channel_subscriptions.items():
            websockets.discard(websocket) *)
     channel_subscriptions :=
       (λ websockets, websockets ∖ {[websocket]}) <$> channel_subscriptions m;
     (* self.ws_to_user.pop(websocket, None) *)
     ws_to_user := delete websocket (ws_to_user m);
     ws_to_role := delete websocket (ws_to_role m) |}.

(** [ConnectionManager.subscribe_to_channel]. *)
Definition subscribe_to_channel (websocket : WebSocket) (channel : string)
    (m : ConnectionManager) : ConnectionManager :=
  {| active_connections := active_connections m;
     role_connections := role_connections m;
     channel_subscriptions :=
       index_add channel websocket (channel_subscriptions m);
     ws_to_user := ws_to_user m;
     ws_to_role := ws_to_role m |}.

(** [ConnectionManager.unsubscribe_from_channel]. *)
Definition unsubscribe_from_channel (websocket : WebSocket) (channel : string)
    (m : ConnectionManager) : ConnectionManager :=
  {| active_connections := active_connections m;
     role_connections := role_connections m;
     channel_subscriptions :=
       index_discard channel websocket (channel_subscriptions m);
     ws_to_user := ws_to_user m;
     ws_to_role := ws_to_role m |}.

(** [websocket] is subscribed to [channel]. *)
Definition subscribed (m : ConnectionManager) (websocket : WebSocket)
    (channel : string) : bool :=
  index_mem channel websocket (channel_subscriptions m).

(** The connection occurs nowhere in the registry: in neither reverse
    mapping and in no set of the three indexes. *)
Definition absent (m : ConnectionManager) (websocket : WebSocket) : Prop :=
  ws_to_user m !! websocket = None ∧
  ws_to_role m !! websocket = None ∧
  ¬ index_holds websocket (active_connections m) ∧
  ¬ index_holds websocket (role_connections m) ∧
  ¬ index_holds websocket (channel_subscriptions m).

(** The registry operations the spec names, for sequences of them. *)
Inductive registry_op :=
| OpRegister (websocket : WebSocket) (user_id : Z) (role : string)
| OpUnregister (websocket : WebSocket)
| OpSubscribe (websocket : WebSocket) (channel : string)
| OpUnsubscribe (websocket : WebSocket) (channel : string).

Definition apply_op (m : ConnectionManager) (op : registry_op)
    : ConnectionManager :=
  match op with
  | OpRegister ws u r => register ws u r m
  | OpUnregister ws => disconnect ws m
  | OpSubscribe ws c => subscribe_to_channel ws c m
  | OpUnsubscribe ws c => unsubscribe_from_channel ws c m
  end.

Definition apply_ops (m : ConnectionManager) (ops : list registry_op)
    : ConnectionManager :=
  foldl apply_op m ops.

(** The operation registers or subscribes the connection [c]. *)
Definition adds (c : WebSocket) (op : registry_op) : Prop :=
  match op with
  | OpRegister ws _ _ | OpSubscribe ws _ => ws = c
  | OpUnregister _ | OpUnsubscribe _ _ => False
  end.

(** The indexes agree with the reverse mappings, and no recorded user id
    or role is falsy. *)
Definition sound (m : ConnectionManager) : Prop :=
  (∀ x u, index_mem u x (active_connections m) = true
          → ws_to_user m !! x = Some u) ∧
  (∀ x r, index_mem r x (role_connections m) = true
          → ws_to_role m !! x = Some r) ∧
  (∀ x, ws_to_user m !! x ≠ Some 0) ∧
  (∀ x, ws_to_role m !! x ≠ Some "").

(** A registration of a connection that is not registered, under a user id
    and a role that are truthy. *)
Definition proper (m : ConnectionManager) (op : registry_op) : Prop :=
  match op with
  | OpRegister ws u r =>
      ws_to_user m !! ws = None ∧ ws_to_role m !! ws = None ∧
      u ≠ 0 ∧ r ≠ ""
  | _ => True
  end.

Fixpoint well_formed (m : ConnectionManager) (ops : list registry_op)
    : Prop :=
  match ops with
  | [] => True
  | op :: rest => proper m op ∧ well_formed (apply_op m op) rest
  end.

(** What [disconnect] reads of a connection: its two reverse mappings and
    its topic memberships. *)
Definition unregistered (m : ConnectionManager) (c : WebSocket) : Prop :=
  ws_to_user m !! c = None ∧
  ws_to_role m !! c = None ∧
  ¬ index_holds c (channel_subscriptions m).

(** ** Time

    A [datetime] in UTC is the count of microseconds since the epoch; the
    calendar fields are recovered for printing. *)

Notation datetime := Z (only parsing).

(** [timedelta(days=d, hours=h)], in microseconds. *)
Definition timedelta (days hours : Z) : Z :=
  (days * 24 + hours) * 3600 * 1000000.

(** Proleptic Gregorian date of a day count since 1970-01-01. *)
Definition civil_from_days (days : Z) : Z * Z * Z :=
  let z := days + 719468 in
  let era := z / 146097 in
  let doe := z - era * 146097 in
  let yoe := (doe - doe / 1460 + doe / 36524 - doe / 146096) / 365 in
  let doy := doe - (365 * yoe + yoe / 4 - yoe / 100) in
  let mp := (5 * doy + 2) / 153 in
  let d := doy - (153 * mp + 2) / 5 + 1 in
  let m := if decide (mp < 10) then mp + 3 else mp - 9 in
  let y := yoe + era * 400 + (if decide (m ≤ 2) then 1 else 0) in
  (y, m, d).

(** Decimal digits, zero-padded on the left to [width]. *)
Definition pad0 (width : nat) (z : Z) : string :=
  let s := pretty z in
  String.concat "" (replicate (width - String.length s) "0") +:+ s.

Definition date_string (ts : datetime) : string :=
  let '(y, m, d) := civil_from_days (ts / 1000000 / 86400) in
  pad0 4 y +:+ "-" +:+ pad0 2 m +:+ "-" +:+ pad0 2 d.

Definition hour_of (ts : datetime) : Z := (ts / 1000000) `mod` 86400 / 3600.
Definition minute_of (ts : datetime) : Z := (ts / 1000000) `mod` 3600 / 60.
Definition second_of (ts : datetime) : Z := (ts / 1000000) `mod` 60.

(** [ts.isoformat()] of an aware UTC datetime. *)
Definition isoformat (ts : datetime) : string :=
  let micro := ts `mod` 1000000 in
  date_string ts +:+ "T" +:+ pad0 2 (hour_of ts) +:+ ":" +:+
  pad0 2 (minute_of ts) +:+ ":" +:+ pad0 2 (second_of ts) +:+
  (if decide (micro = 0) then "" else "." +:+ pad0 6 micro) +:+ "+00:00".

(** [ts.strftime("%Y-%m-%d %H:00:00")]: the timestamp truncated to the
    hour (years of four digits). *)
Definition strftime_hour (ts : datetime) : string :=
  date_string ts +:+ " " +:+ pad0 2 (hour_of ts) +:+ ":00:00".

(** ** Storage collaborator

    The service imports [models] from its own package; that module
    ([services/models.py]) is missing, so its classes are declared here
    with the attributes the service reads and writes. *)

(** Modelled from the spec: [models.AlertStatus], the alert lifecycle
    states of section 3 ([schemas.AlertStatus] has the same four). *)
Inductive AlertStatus := ACTIVE | ACKNOWLEDGED | RESOLVED | DISMISSED.

(** Modelled from the spec: [models.Alert], with the attributes the
    lifecycle handlers stamp (actor and time of each transition). *)
Record Alert := {
  id : Z;
  alert_id : string;
  status : AlertStatus;
  acknowledged_by_id : option Z;
  acknowledged_at : option datetime;
  acknowledged_notes : option json;
  resolved_by_id : option Z;
  resolved_at : option datetime
}.

(** Modelled from the spec: [models.AlertAction], the action record of
    the glossary (who, on which alert, what, with which notes). *)
Record AlertAction := {
  action_alert_id : Z;
  action_user_id : Z;
  action : string;
  notes : json
}.

(** Modelled from the spec: [models.Metric], a reading of a sensor;
    [sensor_name] is [metric.sensor.name], absent when the reading has no
    sensor row. *)
Record Metric := {
  sensor_id : Z;
  metric_type : string;
  value : Q;
  ts : datetime;
  sensor_name : option string
}.

(** The session [self.db]: the three tables in storage order, and whether
    the store is failing (every query and commit then raises). *)
Record Session := {
  alerts : list Alert;
  alert_actions : list AlertAction;
  metrics : list Metric;
  storage_fault : bool
}.

(** ** Effects *)

(** Exceptions of class [Exception]. *)
Inductive Exception :=
| RuntimeError (msg : string)
| NameError (name : string)
| TypeError (msg : string)
| AttributeError (msg : string)
| SQLAlchemyError (msg : string).

Inductive result (A : Type) :=
| Ok (a : A)
| Raise (e : Exception).
Arguments Ok {A} a.
Arguments Raise {A} e.

(** Calls made on a websocket, in order. *)
Inductive Event :=
| EvAccept (websocket : WebSocket)
| EvSent (websocket : WebSocket) (message : Message)
| EvSendFailed (websocket : WebSocket) (message : Message).

(** The peer side: which [accept] and which [send_text(json.dumps(m))]
    raise (peer gone, buffer full, encode error). *)
Record Transport := {
  accept_raises : WebSocket → bool;
  send_text_raises : WebSocket → Message → bool
}.

Record World := {
  manager : ConnectionManager;      (* the global [manager] instance *)
  db : Session;
  transport : Transport;
  wire : list Event;                (* calls made so far *)
  clock : nat → datetime;           (* successive readings of the clock *)
  ticks : nat                       (* readings taken so far *)
}.

Definition with_manager (m : ConnectionManager) (w : World) : World :=
  {| manager := m; db := db w; transport := transport w; wire := wire w;
     clock := clock w; ticks := ticks w |}.

Definition with_db (d : Session) (w : World) : World :=
  {| manager := manager w; db := d; transport := transport w; wire := wire w;
     clock := clock w; ticks := ticks w |}.

Definition emit (e : Event) (w : World) : World :=
  {| manager := manager w; db := db w; transport := transport w;
     wire := wire w ++ [e]; clock := clock w; ticks := ticks w |}.

Definition tick (w : World) : World :=
  {| manager := manager w; db := db w; transport := transport w;
     wire := wire w; clock := clock w; ticks := S (ticks w) |}.

(** A computation: outcome and world after it. *)
Definition M (A : Type) : Type := World → result A * World.

Definition ret {A} (a : A) : M A := λ w, (Ok a, w).

Definition raise {A} (e : Exception) : M A := λ w, (Raise e, w).

Definition bind {A B} (c : M A) (k : A → M B) : M B :=
  λ w, match c w with
       | (Ok a, w') => k a w'
       | (Raise e, w') => (Raise e, w')
       end.

Notation "x <- c ;; k" := (bind c (λ x, k))
  (at level 100, c at next level, right associativity).
Notation "c ;; k" := (bind c (λ _, k))
  (at level 100, right associativity).

(** [try: body  except Exception as e: handler]. *)
Definition try_except {A} (body : M A) (handler : Exception → M A) : M A :=
  λ w, match body w with
       | (Ok a, w') => (Ok a, w')
       | (Raise e, w') => handler e w'
       end.

Definition get_manager : M ConnectionManager := λ w, (Ok (manager w), w).

Definition modify_manager (f : ConnectionManager → ConnectionManager)
    : M unit :=
  λ w, (Ok tt, with_manager (f (manager w)) w).

(** [datetime.now(timezone.utc)]. *)
Definition now : M datetime := λ w, (Ok (clock w (ticks w)), tick w).

(** [for x in l: body(x)]. *)
Fixpoint for_each {A} (l : list A) (body : A → M unit) : M unit :=
  match l with
  | [] => ret tt
  | x :: rest => body x ;; for_each rest body
  end.

(** [await websocket.accept()]. *)
Definition accept (websocket : WebSocket) : M unit :=
  λ w, if accept_raises (transport w) websocket
       then (Raise (RuntimeError "accept"), w)
       else (Ok tt, emit (EvAccept websocket) w).

(** [await websocket.send_text(json.dumps(message))]. *)
Definition send_text (websocket : WebSocket) (message : Message) : M unit :=
  λ w, if send_text_raises (transport w) websocket message
       then (Raise (RuntimeError "send_text"),
             emit (EvSendFailed websocket message) w)
       else (Ok tt, emit (EvSent websocket message) w).

(** ** ConnectionManager: delivery *)

(** [ConnectionManager.send_personal_message]. *)
Definition send_personal_message (message : Message) (websocket : WebSocket)
    : M unit :=
  try_except (send_text websocket message)
             (λ _, modify_manager (disconnect websocket)).

(** The connection confirmation of [connect] (lines 47-53). *)
Definition connection_status (stamp : datetime) (user_id : Z) (role : string)
    : Message :=
  [("type", JStr "connection_status");
   ("status", JStr "connected");
   ("timestamp", JStr (isoformat stamp));
   ("user_id", JInt user_id);
   ("role", JStr role)].

(** [ConnectionManager.connect]. *)
Definition connect (websocket : WebSocket) (user_id : Z) (role : string)
    : M unit :=
  accept websocket ;;
  modify_manager (register websocket user_id role) ;;
  stamp <- now ;;
  send_personal_message (connection_status stamp user_id role) websocket.

(** The send loop shared by the four fan-out methods:
    [for websocket in targets: try: send  except: disconnected.add]. *)
Fixpoint send_loop (targets : list WebSocket) (message : Message)
    (disconnected : gset WebSocket) : M (gset WebSocket) :=
  match targets with
  | [] => ret disconnected
  | websocket :: rest =>
      disconnected' <-
        try_except (send_text websocket message ;; ret disconnected)
                   (λ _, ret ({[websocket]} ∪ disconnected)) ;;
      send_loop rest message disconnected'
  end.

(** [for ws in disconnected: self.disconnect(ws)]. *)
Definition clean_up (disconnected : gset WebSocket) : M unit :=
  for_each (elements disconnected) (λ ws, modify_manager (disconnect ws)).

(** Sending to a copy of a set of connections, then cleaning up. *)
Definition fan_out (targets : gset WebSocket) (message : Message) : M unit :=
  disconnected <- send_loop (elements targets) message ∅ ;;
  clean_up disconnected.

(** [ConnectionManager.send_to_user]. *)
Definition send_to_user (message : Message) (user_id : Z) : M unit :=
  m <- get_manager ;;
  match active_connections m !! user_id with
  | Some websockets => fan_out websockets message
  | None => ret tt
  end.

(** [ConnectionManager.send_to_role]. *)
Definition send_to_role (message : Message) (role : string) : M unit :=
  m <- get_manager ;;
  match role_connections m !! role with
  | Some websockets => fan_out websockets message
  | None => ret tt
  end.

(** [ConnectionManager.send_to_channel]. *)
Definition send_to_channel (message : Message) (channel : string) : M unit :=
  m <- get_manager ;;
  match channel_subscriptions m !! channel with
  | Some websockets => fan_out websockets message
  | None => ret tt
  end.

(** The [all_websockets] of [broadcast]: the union of the by-user sets. *)
Definition all_websockets (m : ConnectionManager) : gset WebSocket :=
  ⋃ (snd <$> map_to_list (active_connections m)).

(** [ConnectionManager.broadcast]. *)
Definition broadcast (message : Message) : M unit :=
  m <- get_manager ;;
  fan_out (all_websockets m) message.

(** ** More Python semantics used by the service *)

(** [message_type == "literal"]. *)
Definition eq_str (o : option json) (literal : string) : bool :=
  match o with
  | Some (JStr s) => bool_decide (s = literal)
  | _ => false
  end.

(** Truth value of a decoded value; a missing one is [None]. *)
Definition truthy (o : option json) : bool :=
  match o with
  | None | Some JNull => false
  | Some (JBool b) => b
  | Some (JInt z) => bool_decide (z ≠ 0)
  | Some (JFloat q) => negb (Qeq_bool q 0)
  | Some (JStr s) => bool_decide (s ≠ "")
  | Some (JList l) => bool_decide (l ≠ [])
  | Some (JObj kv) => bool_decide (kv ≠ [])
  end.

(** [obj.get(key)] on a decoded value: only a [dict] has [get]. *)
Definition py_get (obj : json) (key : string) : M (option json) :=
  match obj with
  | JObj kv => ret (dict_get key kv)
  | _ => raise (AttributeError "get")
  end.

(** Names bound in the module namespace of [websocket_manager.py]: its
    imports (lines 1-9), [logger], the two classes, [manager] and the
    three publisher functions. *)
Definition module_globals : list string :=
  ["json"; "asyncio"; "Dict"; "List"; "Set"; "Optional"; "Any";
   "WebSocket"; "WebSocketDisconnect"; "Session"; "datetime"; "timezone";
   "logging"; "get_current_user_websocket"; "models"; "logger";
   "ConnectionManager"; "manager"; "WebSocketService";
   "broadcast_new_alert"; "broadcast_sensor_update";
   "broadcast_system_health"].

(** Evaluating a global name that is not a builtin: [value] is what the
    name denotes where it is bound, [NameError] is raised where it is
    not. *)
Definition load_global {A} (name : string) (value : A) : M A :=
  if decide (name ∈ module_globals) then ret value else raise (NameError name).

(** ** Storage queries *)

(** [self.db.query(models.Alert).filter(models.Alert.alert_id == key)
    .first()]: the first row whose [alert_id] is the string [key], with
    its position in the table. The column holds strings only, so a key
    that is [None] matches no row and a key of another type is rejected
    by the store. *)
Definition query_alert (key : option json) : M (option (nat * Alert)) :=
  λ w, if storage_fault (db w) then (Raise (SQLAlchemyError "fault"), w)
       else match key with
            | Some (JStr a) =>
                (Ok (list_find (λ row, alert_id row = a) (alerts (db w))), w)
            | None | Some JNull => (Ok None, w)
            | Some _ => (Raise (SQLAlchemyError "operand type"), w)
            end.

(** Attribute assignments on the row object found at position [i]. *)
Definition store_alert (i : nat) (row : Alert) : M unit :=
  λ w, (Ok tt,
        with_db {| alerts := <[i := row]> (alerts (db w));
                   alert_actions := alert_actions (db w);
                   metrics := metrics (db w);
                   storage_fault := storage_fault (db w) |} w).

(** [self.db.add(action)]. *)
Definition db_add (a : AlertAction) : M unit :=
  λ w, (Ok tt,
        with_db {| alerts := alerts (db w);
                   alert_actions := alert_actions (db w) ++ [a];
                   metrics := metrics (db w);
                   storage_fault := storage_fault (db w) |} w).

(** [self.db.commit()]. *)
Definition db_commit : M unit :=
  λ w, if storage_fault (db w) then (Raise (SQLAlchemyError "fault"), w)
       else (Ok tt, w).

(** [order_by(models.Metric.ts.desc())]. *)
Definition ts_desc : relation Metric := λ a b, ts b ≤ ts a.

#[local] Instance ts_desc_dec : RelDecision ts_desc.
Proof. intros a b. unfold ts_desc. apply _. Defined.

(** [query.filter(ts >= start_time)], the optional
    [filter(metric_type == ...)], [order_by(ts.desc()).all()]. *)
Definition query_metrics (start_time : datetime) (type_filter : option json)
    : M (list Metric) :=
  λ w, if storage_fault (db w) then (Raise (SQLAlchemyError "fault"), w)
       else
         let recent := filter (λ row, start_time ≤ ts row) (metrics (db w)) in
         let newest_first := merge_sort ts_desc in
         if truthy type_filter then
           match type_filter with
           | Some (JStr t) =>
               (Ok (newest_first (filter (λ row, metric_type row = t) recent)),
                w)
           | _ => (Raise (SQLAlchemyError "operand type"), w)
           end
         else (Ok (newest_first recent), w).

(** ** Analytics bucketing (lines 476-500) *)

(** [time_series[time_key].append(v)], creating the list on first use;
    the dict keeps insertion order. *)
Fixpoint bucket_append (time_key : string) (v : Q)
    (time_series : list (string * list Q)) : list (string * list Q) :=
  match time_series with
  | [] => [(time_key, [v])]
  | (k, values) :: rest =>
      if decide (k = time_key) then (k, values ++ [v]) :: rest
      else (k, values) :: bucket_append time_key v rest
  end.

Definition group_by_hour (rows : list Metric) : list (string * list Q) :=
  foldl (λ time_series row,
           bucket_append (strftime_hour (ts row)) (value row) time_series)
        [] rows.

(** [sum(values)], [min(values)], [max(values)]. *)
Definition py_sum (values : list Q) : Q := foldl Qplus 0%Q values.

Definition py_min (values : list Q) : Q :=
  match values with
  | [] => 0%Q
  | v :: rest => foldl (λ acc x, if Qle_bool acc x then acc else x) v rest
  end.

Definition py_max (values : list Q) : Q :=
  match values with
  | [] => 0%Q
  | v :: rest => foldl (λ acc x, if Qle_bool x acc then acc else x) v rest
  end.

Record Bucket := {
  timestamp : string;
  avg : Q;
  min : Q;
  max : Q;
  count : Z
}.

(** One entry of [analytics_data] (lines 486-493). The values are floats
    in the code and rationals here: [min], [max] and [count] only compare
    and count the values, so they are what the code computes; [avg] is the
    exact quotient, which the code's float sum and division only
    approximate. *)
Definition bucket_of (entry : string * list Q) : Bucket :=
  let '(time_key, values) := entry in
  {| timestamp := time_key;
     avg := (py_sum values / inject_Z (Z.of_nat (length values)))%Q;
     min := py_min values;
     max := py_max values;
     count := Z.of_nat (length values) |}.

(** The order of [key=lambda x: x["timestamp"]]: strings by code point. *)
Definition by_timestamp : relation Bucket :=
  λ a b, String.leb (timestamp a) (timestamp b) = true.

#[local] Instance by_timestamp_dec : RelDecision by_timestamp.
Proof. intros a b. unfold by_timestamp. apply _. Defined.

(** [sorted(analytics_data, key=lambda x: x["timestamp"])]. *)
Definition time_series_of (rows : list Metric) : list Bucket :=
  merge_sort by_timestamp (bucket_of <$> group_by_hour rows).

Definition bucket_json (b : Bucket) : json :=
  JObj [("timestamp", JStr (timestamp b)); ("avg", JFloat (avg b));
        ("min", JFloat (min b)); ("max", JFloat (max b));
        ("count", JInt (count b))].

(** ** WebSocketService *)

Definition error_message (text : string) : Message :=
  [("type", JStr "error"); ("message", JStr text)].

(** The attribute assignments of the acknowledge handler (lines 247-250). *)
Definition acknowledged (alert : Alert) (user_id : Z) (stamp : datetime)
    (notes_ : json) : Alert :=
  {| id := id alert;
     alert_id := alert_id alert;
     status := ACKNOWLEDGED;
     acknowledged_by_id := Some user_id;
     acknowledged_at := Some stamp;
     acknowledged_notes := Some notes_;
     resolved_by_id := resolved_by_id alert;
     resolved_at := resolved_at alert |}.

(** Its action log entry (lines 253-258). *)
Definition acknowledge_action (alert : Alert) (user_id : Z) (notes_ : json)
    : AlertAction :=
  {| action_alert_id := id alert;
     action_user_id := user_id;
     action := "acknowledge";
     notes := notes_ |}.

(** Its broadcast (lines 263-268) and its reply (lines 270-274). *)
Definition alert_acknowledged (alert_id_ : json) (user_id : Z)
    (stamp : datetime) : Message :=
  [("type", JStr "alert_acknowledged");
   ("alert_id", alert_id_);
   ("acknowledged_by", JInt user_id);
   ("timestamp", JStr (isoformat stamp))].

Definition action_success (name : string) (alert_id_ : json) : Message :=
  [("type", JStr "action_success");
   ("action", JStr name);
   ("alert_id", alert_id_)].

(** The message types [handle_websocket_message] tests for. *)
Definition recognized_types : list string :=
  ["subscribe"; "unsubscribe"; "acknowledge_alert"; "resolve_alert";
   "request_data"; "ping"].

Section Service.
(** [str()] of a decoded float, list or dict, as an f-string prints it. *)
Variable py_repr : json → string.

(** The handlers and senders not embedded here: channel
    (un)subscription, alert resolution, and the three snapshot queries
    that go to the store. *)
Variable _handle_subscribe : WebSocket → Message → M unit.
Variable _handle_unsubscribe : WebSocket → Message → M unit.
Variable _handle_resolve_alert : WebSocket → Message → M unit.
Variable _send_sensor_data : WebSocket → json → M unit.
Variable _send_alerts : WebSocket → json → M unit.
Variable _send_system_stats : WebSocket → M unit.

(** [f"{message_type}"]. *)
Definition py_str (o : option json) : string :=
  match o with
  | None | Some JNull => "None"
  | Some (JBool true) => "True"
  | Some (JBool false) => "False"
  | Some (JInt z) => pretty z
  | Some (JStr s) => s
  | Some j => py_repr j
  end.

(** [WebSocketService._handle_acknowledge_alert]. *)
Definition _handle_acknowledge_alert (websocket : WebSocket)
    (message : Message) : M unit :=
  m <- get_manager ;;
  let user_id := ws_to_user m !! websocket in
  if negb (truthy_int user_id) then ret tt
  else
    let uid := default 0 user_id in
    let alert_id_ := dict_get "alert_id" message in
    let notes_ := dict_get_default "notes" (JStr "") message in
    found <- query_alert alert_id_ ;;
    match found with
    | None => ret tt
    | Some (i, alert) =>
        stamp <- now ;;
        store_alert i (acknowledged alert uid stamp notes_) ;;
        db_add (acknowledge_action alert uid notes_) ;;
        db_commit ;;
        sent_at <- now ;;
        broadcast (alert_acknowledged (default JNull alert_id_) uid sent_at) ;;
        send_personal_message
          (action_success "acknowledge_alert" (default JNull alert_id_))
          websocket
    end.

(** [WebSocketService._handle_ping]. *)
Definition _handle_ping (websocket : WebSocket) : M unit :=
  sent_at <- now ;;
  send_personal_message
    [("type", JStr "pong"); ("timestamp", JStr (isoformat sent_at))]
    websocket.

(** [WebSocketService._send_analytics]. *)
Definition _send_analytics (websocket : WebSocket) (parameters : json)
    : M unit :=
  metric_type_ <- py_get parameters "metric_type" ;;
  time_range_opt <- py_get parameters "time_range" ;;
  let time_range := default (JStr "24h") time_range_opt in
  now_ <- now ;;
  start_time <-
    (if eq_str (Some time_range) "1h" then
       td <- load_global "timedelta" timedelta ;; ret (now_ - td 0 1)
     else if eq_str (Some time_range) "24h" then
       td <- load_global "timedelta" timedelta ;; ret (now_ - td 0 24)
     else if eq_str (Some time_range) "7d" then
       td <- load_global "timedelta" timedelta ;; ret (now_ - td 7 0)
     else
       td <- load_global "timedelta" timedelta ;; ret (now_ - td 0 24)) ;;
  rows <- query_metrics start_time metric_type_ ;;
  sent_at <- now ;;
  send_personal_message
    [("type", JStr "analytics_response");
     ("data", JObj [("metric_type", default JNull metric_type_);
                    ("time_range", time_range);
                    ("time_series",
                     JList (bucket_json <$> time_series_of rows))]);
     ("timestamp", JStr (isoformat sent_at))] websocket.

(** [WebSocketService._handle_data_request]. *)
Definition _handle_data_request (websocket : WebSocket) (message : Message)
    : M unit :=
  let data_type := dict_get "data_type" message in
  let parameters := dict_get_default "parameters" (JObj []) message in
  if eq_str data_type "sensor_data" then
    _send_sensor_data websocket parameters
  else if eq_str data_type "alerts" then
    _send_alerts websocket parameters
  else if eq_str data_type "system_stats" then
    _send_system_stats websocket
  else if eq_str data_type "analytics" then
    _send_analytics websocket parameters
  else ret tt.

(** The handler a message type selects, [None] for the [else] branch. *)
Definition handler_for (message_type : option json)
    : option (WebSocket → Message → M unit) :=
  if eq_str message_type "subscribe" then Some _handle_subscribe
  else if eq_str message_type "unsubscribe" then Some _handle_unsubscribe
  else if eq_str message_type "acknowledge_alert" then
    Some _handle_acknowledge_alert
  else if eq_str message_type "resolve_alert" then
    Some _handle_resolve_alert
  else if eq_str message_type "request_data" then Some _handle_data_request
  else if eq_str message_type "ping" then Some (λ ws _, _handle_ping ws)
  else None.

(** [WebSocketService.handle_websocket_message]. *)
Definition handle_websocket_message (websocket : WebSocket)
    (message : Message) : M unit :=
  let message_type := dict_get "type" message in
  try_except
    match handler_for message_type with
    | Some handler => handler websocket message
    | None =>
        send_personal_message
          (error_message ("Unknown message type: " +:+ py_str message_type))
          websocket
    end
    (λ _, send_personal_message (error_message "Internal server error")
                                websocket).

(** [handle_websocket_message] on any decoded JSON value. The annotation
    [message: dict] is not enforced, and [message.get("type")] (line 193)
    stands before the [try]: on a value that is not a dict it raises
    [AttributeError] outside the [try], so no handler of the method
    catches it. On a dict it is the method as embedded above. *)
Definition handle_websocket_message_decoded (websocket : WebSocket)
    (message : json) : M unit :=
  match message with
  | JObj fields => handle_websocket_message websocket fields
  | _ => raise (AttributeError "get")
  end.
End Service.

(** ** Event publishers *)

Definition sensor_update (metric : Metric) : Message :=
  [("type", JStr "sensor_update");
   ("sensor_id", JInt (sensor_id metric));
   ("metric_type", JStr (metric_type metric));
   ("value", JFloat (value metric));
   ("timestamp", JStr (isoformat (ts metric)));
   ("sensor_name", from_option JStr JNull (sensor_name metric))].

(** [broadcast_sensor_update]. *)
Definition broadcast_sensor_update (metric : Metric) : M unit :=
  let update_data := sensor_update metric in
  send_to_channel update_data "sensor_updates" ;;
  send_to_channel update_data ("sensor_" +:+ pretty (sensor_id metric)).

(** ** Observations used in the statements *)

Definition outcome {A} (c : M A) (w : World) : result A := (c w).1.

Definition after {A} (c : M A) (w : World) : World := (c w).2.

(** The calls a computation adds to the wire. *)
Definition events_of {A} (c : M A) (w : World) : list Event :=
  drop (length (wire w)) (wire (after c w)).

Definition emits (evs : list Event) (w : World) : World :=
  {| manager := manager w; db := db w; transport := transport w;
     wire := wire w ++ evs; clock := clock w; ticks := ticks w |}.

(** What one [send_text] call leaves on the wire. *)
Definition attempt (w : World) (message : Message) (websocket : WebSocket)
    : Event :=
  if send_text_raises (transport w) websocket message
  then EvSendFailed websocket message
  else EvSent websocket message.

(** The connections of [targets] whose send raises. *)
Definition failing (w : World) (message : Message)
    (targets : gset WebSocket) : gset WebSocket :=
  list_to_set
    (filter (λ x, send_text_raises (transport w) x message = true)
            (elements targets)).

Definition target (e : Event) : WebSocket :=
  match e with
  | EvAccept ws | EvSent ws _ | EvSendFailed ws _ => ws
  end.

(** The events addressed to one connection. *)
Definition events_to (c : WebSocket) (evs : list Event) : list Event :=
  filter (λ e, target e = c) evs.

(** The addressing modes of the four fan-out methods. *)
Inductive selector :=
| ToAll
| ToUser (user_id : Z)
| ToRole (role : string)
| ToChannel (channel : string).

(** The set a fan-out method copies before it sends. *)
Definition snapshot (sel : selector) (m : ConnectionManager)
    : gset WebSocket :=
  match sel with
  | ToAll => all_websockets m
  | ToUser u => default ∅ (active_connections m !! u)
  | ToRole r => default ∅ (role_connections m !! r)
  | ToChannel c => default ∅ (channel_subscriptions m !! c)
  end.

Definition deliver (message : Message) (sel : selector) : M unit :=
  match sel with
  | ToAll => broadcast message
  | ToUser u => send_to_user message u
  | ToRole r => send_to_role message r
  | ToChannel c => send_to_channel message c
  end.

(** Every registration of [x] is the same in [m] and [m']. *)
Definition same_entries (x : WebSocket) (m m' : ConnectionManager) : Prop :=
  ws_to_user m' !! x = ws_to_user m !! x ∧
  ws_to_role m' !! x = ws_to_role m !! x ∧
  (∀ u, index_mem u x (active_connections m')
        = index_mem u x (active_connections m)) ∧
  (∀ r, index_mem r x (role_connections m')
        = index_mem r x (role_connections m)) ∧
  (∀ c, index_mem c x (channel_subscriptions m')
        = index_mem c x (channel_subscriptions m)).

(** No topic of the index has an empty subscriber set. *)
Definition no_empty_topic (m : ConnectionManager) : Prop :=
  ∀ channel s, channel_subscriptions m !! channel = Some s → s ≠ ∅.

(** ** Example worlds *)

(** A clock that starts at 2024-01-01 10:05:00 and advances by a
    microsecond per reading. *)
Definition quiet_clock : nat → datetime := λ n, Z.of_nat n + 1704103500000000.

(** No peer ever fails. *)
Definition healthy : Transport :=
  {| accept_raises := λ _, false; send_text_raises := λ _ _, false |}.

(** Every send to connection [2] fails. *)
Definition two_is_gone : Transport :=
  {| accept_raises := λ _, false;
     send_text_raises := λ ws _, bool_decide (ws = 2%positive) |}.

Definition empty_db : Session :=
  {| alerts := []; alert_actions := []; metrics := [];
     storage_fault := false |}.

Definition world_of (m : ConnectionManager) (d : Session) (t : Transport)
    : World :=
  {| manager := m; db := d; transport := t; wire := [];
     clock := quiet_clock; ticks := 0 |}.

(** Connections [1] and [2] of role ["ops"], the peer of [2] gone. *)
Definition ops_world : World :=
  world_of (register 2 8 "ops" (register 1 7 "ops" new_manager))
           empty_db two_is_gone.

Definition blank_world : World := world_of new_manager empty_db healthy.

(** After connecting as user 7 with role ["traffic_control"] and
    subscribing to ["sensor_42"]. *)
Definition sensor_42_world : World :=
  after (modify_manager (subscribe_to_channel 1 "sensor_42"))
        (after (connect 1 7 "traffic_control") blank_world).

(** Connection [1] was subscribed to ["alerts"] and has been unregistered,
    twice; connection [2] is still registered and has subscribed since. *)
Definition after_unregister : ConnectionManager :=
  apply_ops
    (disconnect 1
       (subscribe_to_channel 1 "alerts"
          (register 2 8 "admin" (register 1 7 "viewer" new_manager))))
    [OpSubscribe 2 "alerts"; OpUnregister 1].

Definition system_health : Message :=
  [("type", JStr "system_health"); ("status", JStr "healthy")].

Definition bogus_message : Message := [("type", JStr "bogus")].

(** Stand-ins for the handlers that are parameters of the dispatcher. *)
Definition no_handler : WebSocket → Message → M unit := λ _ _, ret tt.
Definition no_sender : WebSocket → json → M unit := λ _ _, ret tt.

Definition reading (sensor : Z) (v : Q) (seconds : Z) : Metric :=
  {| sensor_id := sensor; metric_type := "temperature"; value := v;
     ts := seconds * 1000000; sensor_name := None |}.

(** An alert that user 3 has resolved, and user 7 connected. *)
Definition resolved_alert : Alert :=
  {| id := 1; alert_id := "ALERT-1"; status := RESOLVED;
     acknowledged_by_id := None; acknowledged_at := None;
     acknowledged_notes := None;
     resolved_by_id := Some 3; resolved_at := Some 1704100000000000 |}.

Definition resolved_world : World :=
  world_of (register 1 7 "admin" new_manager)
           {| alerts := [resolved_alert]; alert_actions := []; metrics := [];
              storage_fault := false |}
           healthy.

Definition acknowledge_alert_1 : Message :=
  [("type", JStr "acknowledge_alert"); ("alert_id", JStr "ALERT-1")].

(** Readings at 10:05, 10:50 and 11:05 of 2024-01-01 with values 1, 3, 5. *)
Definition three_readings : list Metric :=
  [reading 42 1 1704103500; reading 42 3 1704106200;
   reading 42 5 1704107100].

Definition analytics_world : World :=
  {| manager := register 1 7 "admin" new_manager;
     db := {| alerts := []; alert_actions := []; metrics := three_readings;
              storage_fault := false |};
     transport := healthy; wire := [];
     clock := λ n, Z.of_nat n + 1704110400000000; ticks := 0 |}.

Definition analytics_request : Message :=
  [("type", JStr "request_data"); ("data_type", JStr "analytics");
   ("parameters", JObj [("time_range", JStr "24h")])].

(** Connection [1] of user 7 and connection [2] registered under user
    id [0], the peer of [2] gone. *)
Definition zero_user_world : World :=
  world_of (register 2 0 "ops" (register 1 7 "ops" new_manager))
           empty_db two_is_gone.

(** What [json.loads] gives for the text [["ping"]]. *)
Definition ping_in_a_list : json := JList [JStr "ping"].

(** ** Further code of the module: connection statistics *)

(** The dict [get_connection_stats] returns. *)
Module Stats.
Record t := {
  total_connections : nat;
  users_online : nat;
  connections_by_role : gmap string nat;
  channel_subscriptions : gmap string nat
}.
End Stats.

(** [ConnectionManager.get_connection_stats]. *)
Definition get_connection_stats (m : ConnectionManager) : Stats.t :=
  {| Stats.total_connections :=
       sum_list (size <$> (snd <$> map_to_list (active_connections m)));
     Stats.users_online := size (active_connections m);
     Stats.connections_by_role := size <$> role_connections m;
     Stats.channel_subscriptions := size <$> channel_subscriptions m |}.

(** No key of the by-user or the by-role index is mapped to the empty
    set. *)
Definition no_empty_entry (m : ConnectionManager) : Prop :=
  (∀ u s, active_connections m !! u = Some s → s ≠ ∅) ∧
  (∀ r s, role_connections m !! r = Some s → s ≠ ∅).

(** ** Further messages of the service *)

(** The reply of [_handle_ping] (lines 339-342). *)
Definition pong (stamp : datetime) : Message :=
  [("type", JStr "pong"); ("timestamp", JStr (isoformat stamp))].

(** The data kinds [_handle_data_request] tests for. *)
Definition data_types : list string :=
  ["sensor_data"; "alerts"; "system_stats"; "analytics"].

(** ** Further code of the module: the subscription handlers *)

(** The keys the loop [for channel in channels: ...] visits when
    [channels] is a decoded list, and the exception that ends the loop,
    if any: a [list] or [dict] element is unhashable, so the membership
    test [channel in self.channel_subscriptions] raises [TypeError] on
    it. The result is [None] where a visited element is hashable and not
    a [str] (a number, a boolean or null): the index of this embedding
    is keyed by strings and cannot hold such a key. *)
Fixpoint channel_keys (elements : list json)
    : option (list string * option Exception) :=
  match elements with
  | [] => Some ([], None)
  | JStr s :: rest =>
      match channel_keys rest with
      | Some (keys, stop) => Some (s :: keys, stop)
      | None => None
      end
  | JList _ :: _ | JObj _ :: _ => Some ([], Some (TypeError "unhashable type"))
  | JNull :: _ | JBool _ :: _ | JInt _ :: _ | JFloat _ :: _ => None
  end.

(** Iterating the decoded [channels] value: a number, a boolean or null
    is not iterable. Iterating a [str] (its characters) or a [dict] (its
    keys) is left out of the embedding. *)
Definition iterate (channels : json)
    : option (list string * option Exception) :=
  match channels with
  | JList l => channel_keys l
  | JNull | JBool _ | JInt _ | JFloat _ =>
      Some ([], Some (TypeError "object is not iterable"))
  | JStr _ | JObj _ => None
  end.

Definition subscription_confirmed (channels : json) (stamp : datetime)
    : Message :=
  [("type", JStr "subscription_confirmed");
   ("channels", channels);
   ("timestamp", JStr (isoformat stamp))].

Definition unsubscription_confirmed (channels : json) (stamp : datetime)
    : Message :=
  [("type", JStr "unsubscription_confirmed");
   ("channels", channels);
   ("timestamp", JStr (isoformat stamp))].

(** The body shared by the two handlers: apply [change] for each visited
    key, then raise what ended the loop or send the confirmation. *)
Definition walk_channels
    (change : string → ConnectionManager → ConnectionManager)
    (confirmation : datetime → Message) (websocket : WebSocket)
    (walk : list string * option Exception) : M unit :=
  for_each walk.1 (λ channel, modify_manager (change channel)) ;;
  match walk.2 with
  | Some e => raise e
  | None =>
      stamp <- now ;;
      send_personal_message (confirmation stamp) websocket
  end.

(** [WebSocketService._handle_subscribe], where it is embedded. *)
Definition _handle_subscribe (websocket : WebSocket) (message : Message)
    : option (M unit) :=
  let channels := dict_get_default "channels" (JList []) message in
  walk_channels (subscribe_to_channel websocket)
                (subscription_confirmed channels) websocket
    <$> iterate channels.

(** [WebSocketService._handle_unsubscribe], where it is embedded. *)
Definition _handle_unsubscribe (websocket : WebSocket) (message : Message)
    : option (M unit) :=
  let channels := dict_get_default "channels" (JList []) message in
  walk_channels (unsubscribe_from_channel websocket)
                (unsubscription_confirmed channels) websocket
    <$> iterate channels.

(** Subscribing, respectively unsubscribing, one connection to a list
    of topics in order. *)
Definition subscribe_all (websocket : WebSocket) (channels : list string)
    (m : ConnectionManager) : ConnectionManager :=
  foldl (λ m channel, subscribe_to_channel websocket channel m) m channels.

Definition unsubscribe_all (websocket : WebSocket) (channels : list string)
    (m : ConnectionManager) : ConnectionManager :=
  foldl (λ m channel, unsubscribe_from_channel websocket channel m) m channels.

(** A decoded value that cannot be a dict key. *)
Definition unhashable (j : json) : Prop :=
  match j with
  | JList _ | JObj _ => True
  | _ => False
  end.

(** A decoded value that cannot be iterated. *)
Definition not_iterable (j : json) : Prop :=
  match j with
  | JNull | JBool _ | JInt _ | JFloat _ => True
  | _ => False
  end.

(** ** Further code of the module: the other publishers *)

(** Modelled from the spec: the attributes of [models.Alert] that
    [broadcast_new_alert] reads besides those of [Alert]: the sensor
    reference, the texts, the severity (its string value), the creation
    time, the location and the category. *)
Module Details.
Record t := {
  sensor_id : option Z;
  sensor_name : option string;
  title : string;
  message : string;
  severity : string;
  created_at : datetime;
  location_lat : option Q;
  location_lng : option Q;
  location_address : option string;
  category : option string
}.
End Details.

(** [alert.status.value]. *)
Definition status_value (s : AlertStatus) : string :=
  match s with
  | ACTIVE => "active"
  | ACKNOWLEDGED => "acknowledged"
  | RESOLVED => "resolved"
  | DISMISSED => "dismissed"
  end.

(** The [alert_data] of [broadcast_new_alert] (lines 508-527). *)
Definition new_alert (alert : Alert) (details : Details.t) (stamp : datetime)
    : Message :=
  [("type", JStr "new_alert");
   ("alert",
    JObj [("id", JInt (id alert));
          ("alert_id", JStr (alert_id alert));
          ("sensor_id", from_option JInt JNull (Details.sensor_id details));
          ("sensor_name",
           from_option JStr JNull (Details.sensor_name details));
          ("title", JStr (Details.title details));
          ("message", JStr (Details.message details));
          ("severity", JStr (Details.severity details));
          ("status", JStr (status_value (status alert)));
          ("created_at", JStr (isoformat (Details.created_at details)));
          ("location",
           JObj [("lat",
                  from_option JFloat JNull (Details.location_lat details));
                 ("lng",
                  from_option JFloat JNull (Details.location_lng details));
                 ("address",
                  from_option JStr JNull
                    (Details.location_address details))])]);
   ("timestamp", JStr (isoformat stamp))].

(** [broadcast_new_alert]. *)
Definition broadcast_new_alert (alert : Alert) (details : Details.t)
    : M unit :=
  stamp <- now ;;
  let alert_data := new_alert alert details stamp in
  broadcast alert_data ;;
  if bool_decide (Details.category details = Some "traffic") then
    send_to_role alert_data "traffic_control"
  else if bool_decide (Details.category details = Some "environment") then
    send_to_role alert_data "environment_officer"
  else if bool_decide (Details.category details = Some "utility") then
    send_to_role alert_data "utility_officer"
  else ret tt.

(** The role the [if] chain of [broadcast_new_alert] selects. *)
Definition category_role (category : option string) : option string :=
  if bool_decide (category = Some "traffic") then Some "traffic_control"
  else if bool_decide (category = Some "environment")
       then Some "environment_officer"
  else if bool_decide (category = Some "utility") then Some "utility_officer"
  else None.

(** The [health_data] of [broadcast_system_health] (lines 558-566). *)
Definition health_data (stamp : datetime) : Message :=
  [("type", JStr "system_health");
   ("status", JStr "healthy");
   ("uptime", JStr "99.9%");
   ("active_sensors", JInt 45);
   ("total_sensors", JInt 50);
   ("active_alerts", JInt 12);
   ("timestamp", JStr (isoformat stamp))].

(** [broadcast_system_health]. *)
Definition broadcast_system_health : M unit :=
  stamp <- now ;;
  broadcast (health_data stamp).

(** ** Observations on the bucketing *)

(** [time_series.get(time_key)] on the insertion-ordered dict. *)
Fixpoint bucket_get (time_key : string)
    (time_series : list (string * list Q)) : option (list Q) :=
  match time_series with
  | [] => None
  | (k, values) :: rest =>
      if decide (k = time_key) then Some values else bucket_get time_key rest
  end.

(** The values of the readings of one hour, in the order of the rows. *)
Definition values_of_hour (time_key : string) (rows : list Metric) : list Q :=
  value <$> filter (λ row, strftime_hour (ts row) = time_key) rows.

(** ** [backend/app/db.py]: demo seeding

    The tables [roles], [sensors] and [users] of [backend/app/models.py],
    each with the sequence that numbers its rows. The session does not
    autoflush, so a query sees the rows that are stored and not the
    objects added since the last commit. *)

Module Seed.

Module Role.
Record t := { id : Z; name : string }.
End Role.

Module Sensor.
Record t := {
  id : Z;
  name : string;
  type : string;
  location_lat : Q;
  location_lng : Q
}.
End Sensor.

Module User.
Record t := {
  id : Z;
  email : string;
  password_hash : string;
  role_id : option Z
}.
End User.

Record Tables := {
  roles : list Role.t;
  roles_seq : Z;
  sensors : list Sensor.t;
  sensors_seq : Z;
  users : list User.t;
  users_seq : Z
}.

(** The [roles] list of the seeding function (line 54). *)
Definition default_roles : list string :=
  ["admin"; "environment_officer"; "utility_officer"; "traffic_control";
   "viewer"].

(** The demo sensors (lines 63-76): name, type, latitude, longitude. *)
Definition demo_sensors : list (string * string * Q * Q) :=
  [("AQM-001", "air_quality_pm25", 1297 # 100, 7759 # 100);
   ("TRF-101", "traffic_congestion", 1298 # 100, 7760 # 100);
   ("WST-201", "waste_level", 1299 # 100, 7761 # 100);
   ("ENG-301", "energy_usage", 1300 # 100, 7762 # 100)]%Q.

Definition admin_email : string := "admin@example.com".

(** [db.query(models.Role).filter_by(name=n).first()]. *)
Definition first_role (n : string) (t : Tables) : option Role.t :=
  snd <$> list_find (λ r, Role.name r = n) (roles t).

(** [db.query(models.User).filter_by(email=e).first()]. *)
Definition first_user (e : string) (t : Tables) : option User.t :=
  snd <$> list_find (λ u, User.email u = e) (users t).

(** Storing one added object: the sequence gives the id. *)
Definition insert_role (t : Tables) (n : string) : Tables :=
  {| roles := roles t ++ [{| Role.id := roles_seq t + 1; Role.name := n |}];
     roles_seq := roles_seq t + 1;
     sensors := sensors t; sensors_seq := sensors_seq t;
     users := users t; users_seq := users_seq t |}.

Definition insert_sensor (t : Tables) (s : string * string * Q * Q)
    : Tables :=
  let '(n, ty, lat, lng) := s in
  {| roles := roles t; roles_seq := roles_seq t;
     sensors := sensors t
                ++ [{| Sensor.id := sensors_seq t + 1; Sensor.name := n;
                       Sensor.type := ty; Sensor.location_lat := lat;
                       Sensor.location_lng := lng |}];
     sensors_seq := sensors_seq t + 1;
     users := users t; users_seq := users_seq t |}.

Definition insert_user (t : Tables) (e h : string) (r : option Z) : Tables :=
  {| roles := roles t; roles_seq := roles_seq t;
     sensors := sensors t; sensors_seq := sensors_seq t;
     users := users t
              ++ [{| User.id := users_seq t + 1; User.email := e;
                     User.password_hash := h; User.role_id := r |}];
     users_seq := users_seq t + 1 |}.

(** Lines 55-58: each default role no stored row has is added; the
    commit stores the added ones in order. *)
Definition seed_roles (t : Tables) : Tables :=
  let added :=
    foldl (λ added r,
             match first_role r t with
             | Some _ => added
             | None => added ++ [r]
             end) [] default_roles in
  foldl insert_role t added.

(** Lines 61-78: the demo sensors, into an empty table only. *)
Definition seed_sensors (t : Tables) : Tables :=
  if decide (length (sensors t) = 0%nat) then foldl insert_sensor t demo_sensors
  else t.

(** Lines 81-91: the admin user, unless one has the admin email. *)
Definition seed_admin (get_password_hash : string → string) (t : Tables)
    : Tables :=
  match first_user admin_email t with
  | Some _ => t
  | None =>
      let admin_role := first_role "admin" t in
      insert_user t admin_email (get_password_hash "admin123")
                  (Role.id <$> admin_role)
  end.

(** [seed_demo_user_if_enabled], on the rows: [allow] is
    [ALLOW_DEMO_SEED], [get_password_hash] the function of the [auth]
    module. *)
Definition seed_demo_user_if_enabled (allow : bool)
    (get_password_hash : string → string) (t : Tables) : Tables :=
  if allow then seed_admin get_password_hash (seed_sensors (seed_roles t))
  else t.

End Seed.

(** ** Further example values *)

(** Every [accept] fails. *)
Definition no_accept : Transport :=
  {| accept_raises := λ _, true; send_text_raises := λ _ _, false |}.

(** Connection [1] of user 7, role ["ops"]. *)
Definition one_ops : ConnectionManager := register 1 7 "ops" new_manager.

Definition one_ops_world : World := world_of one_ops empty_db healthy.

(** Connection [1] is registered and the peer of [2] is gone. *)
Definition two_calls_in : World := world_of one_ops empty_db two_is_gone.

Definition nobody_accepted : World := world_of new_manager empty_db no_accept.

(** Two connections of role ["ops"], the first subscribed to ["alerts"]. *)
Definition ops_history : list registry_op :=
  [OpRegister 1 7 "ops"; OpRegister 2 8 "ops"; OpSubscribe 1 "alerts"].

Definition ping_message : Message :=
  [("type", JStr "ping"); ("seq", JInt 3)].

Definition weather_request : Message :=
  [("type", JStr "request_data"); ("data_type", JStr "weather")].

Definition acknowledge_alert_9 : Message :=
  [("type", JStr "acknowledge_alert"); ("alert_id", JStr "ALERT-9")].

Definition acknowledge_with_notes : Message :=
  [("type", JStr "acknowledge_alert"); ("alert_id", JStr "ALERT-1");
   ("notes", JStr "on my way")].

(** The store of [resolved_world], failing. *)
Definition broken_store_world : World :=
  world_of (register 1 7 "admin" new_manager)
           {| alerts := [resolved_alert]; alert_actions := []; metrics := [];
              storage_fault := true |}
           healthy.

(** Users 7 and 8 connected, one alert stored. *)
Definition two_admins_world : World :=
  world_of (register 2 8 "admin" (register 1 7 "admin" new_manager))
           {| alerts := [resolved_alert]; alert_actions := []; metrics := [];
              storage_fault := false |}
           healthy.

Definition subscribe_two : Message :=
  [("type", JStr "subscribe");
   ("channels", JList [JStr "alerts"; JStr "sensor_42"])].

Definition unsubscribe_sensor_42 : Message :=
  [("type", JStr "unsubscribe"); ("channels", JList [JStr "sensor_42"])].

(** A [channels] list with a list in the middle. *)
Definition subscribe_nested : Message :=
  [("type", JStr "subscribe");
   ("channels", JList [JStr "alerts"; JList []; JStr "sensor_42"])].

Definition subscribe_number : Message :=
  [("type", JStr "subscribe"); ("channels", JInt 5)].

(** A traffic alert, with a traffic controller and a viewer connected. *)
Definition traffic_jam : Details.t :=
  {| Details.sensor_id := Some 101; Details.sensor_name := Some "TRF-101";
     Details.title := "Congestion"; Details.message := "Queue at junction 4";
     Details.severity := "high"; Details.created_at := 1704103500000000;
     Details.location_lat := None; Details.location_lng := None;
     Details.location_address := None; Details.category := Some "traffic" |}.

Definition active_alert : Alert :=
  {| id := 2; alert_id := "ALERT-2"; status := ACTIVE;
     acknowledged_by_id := None; acknowledged_at := None;
     acknowledged_notes := None;
     resolved_by_id := None; resolved_at := None |}.

Definition control_room : World :=
  world_of (register 2 8 "viewer" (register 1 7 "traffic_control" new_manager))
           empty_db healthy.


(** Tables that hold the viewer role and one sensor, and no user. *)
Definition small_town : Seed.Tables :=
  {| Seed.roles := [{| Seed.Role.id := 1; Seed.Role.name := "viewer" |}];
     Seed.roles_seq := 1;
     Seed.sensors :=
       [{| Seed.Sensor.id := 1; Seed.Sensor.name := "AQM-900";
           Seed.Sensor.type := "air_quality_pm25";
           Seed.Sensor.location_lat := 13%Q;
           Seed.Sensor.location_lng := 77%Q |}];
     Seed.sensors_seq := 1;
     Seed.users := []; Seed.users_seq := 0 |}.

(** A stand-in for [get_password_hash]. *)
Definition demo_hash : string → string := λ password, "hash:" +:+ password.

(** Membership in a list literal. *)
Ltac in_list :=
  repeat first [apply list_elem_of_here | apply list_elem_of_further].

(** * Properties *)

(** ** Index lemmas *)

Section IndexFacts.
Context `{Countable K}.
Implicit Types (index : gmap K (gset WebSocket)) (k : K) (ws : WebSocket).

Lemma index_add_lookup k ws index :
  index_add k ws index !! k = Some ({[ws]} ∪ default ∅ (index !! k)).
Proof.
  unfold index_add. destruct (index !! k) as [s|] eqn:E.
  - by rewrite lookup_alter_eq, E.
  - by rewrite lookup_alter_eq, lookup_insert_eq.
Qed.

Lemma index_add_lookup_ne k k' ws index :
  k ≠ k' → index_add k ws index !! k' = index !! k'.
Proof.
  intros Hne. unfold index_add. rewrite lookup_alter_ne by done.
  destruct (index !! k); [done|]. by rewrite lookup_insert_ne.
Qed.

Lemma index_discard_lookup k ws index :
  index_discard k ws index !! k =
    s ← index !! k; if decide (s ∖ {[ws]} = ∅) then None else Some (s ∖ {[ws]}).
Proof.
  unfold index_discard. destruct (index !! k) as [s|] eqn:E; simpl.
  - case_decide.
    + by rewrite lookup_delete_eq.
    + by rewrite lookup_insert_eq.
  - done.
Qed.

Lemma index_discard_lookup_ne k k' ws index :
  k ≠ k' → index_discard k ws index !! k' = index !! k'.
Proof.
  intros Hne. unfold index_discard. destruct (index !! k) as [s|]; [|done].
  case_decide.
  - by rewrite lookup_delete_ne.
  - by rewrite lookup_insert_ne.
Qed.

Lemma index_mem_true k ws index :
  index_mem k ws index = true ↔ ∃ s, index !! k = Some s ∧ ws ∈ s.
Proof.
  unfold index_mem. destruct (index !! k) as [s|].
  - rewrite bool_decide_eq_true. naive_solver.
  - naive_solver.
Qed.

Lemma index_mem_add k ws index : index_mem k ws (index_add k ws index) = true.
Proof.
  apply index_mem_true. rewrite index_add_lookup.
  eexists. split; [done|]. set_solver.
Qed.

Lemma index_mem_discard k ws index :
  index_mem k ws (index_discard k ws index) = false.
Proof.
  unfold index_mem. rewrite index_discard_lookup.
  destruct (index !! k) as [s|]; simpl; [|done].
  case_decide; [done|]. apply bool_decide_eq_false. set_solver.
Qed.

(** Discarding [ws] changes no other connection's membership. *)
Lemma index_mem_discard_other k k' ws x index :
  x ≠ ws → index_mem k' x (index_discard k ws index) = index_mem k' x index.
Proof.
  intros Hne. unfold index_mem. destruct (decide (k = k')) as [<-|Hk].
  - rewrite index_discard_lookup.
    destruct (index !! k) as [s|]; simpl; [|done].
    case_decide as Hs.
    + symmetry. apply bool_decide_eq_false. set_solver.
    + apply bool_decide_ext. set_solver.
  - by rewrite index_discard_lookup_ne.
Qed.

Lemma index_mem_add_iff k k' ws x index :
  index_mem k x (index_add k' ws index) = true
  ↔ (k = k' ∧ x = ws) ∨ index_mem k x index = true.
Proof.
  rewrite !index_mem_true. destruct (decide (k' = k)) as [->|Hne].
  - rewrite index_add_lookup. split.
    + intros (s & [= <-] & Hin).
      apply elem_of_union in Hin as [Hin|Hin]; [left; set_solver|].
      right. destruct (index !! k) as [s0|]; [by exists s0 | set_solver].
    + intros [[_ ->]|(s & Hs & Hin)]; eexists; (split; [done|]).
      * set_solver.
      * rewrite Hs. set_solver.
  - rewrite index_add_lookup_ne by done. naive_solver.
Qed.

Lemma index_mem_discard_true k k' ws x index :
  index_mem k x (index_discard k' ws index) = true →
  index_mem k x index = true ∧ (k = k' → x ≠ ws).
Proof.
  intros Hmem. split.
  - destruct (decide (x = ws)) as [->|Hne].
    + destruct (decide (k' = k)) as [->|Hk].
      * by rewrite index_mem_discard in Hmem.
      * revert Hmem. unfold index_mem.
        by rewrite index_discard_lookup_ne.
    + by rewrite index_mem_discard_other in Hmem.
  - intros -> ->. by rewrite index_mem_discard in Hmem.
Qed.

Lemma index_holds_mem ws index :
  index_holds ws index ↔ ∃ k, index_mem k ws index = true.
Proof.
  unfold index_holds. setoid_rewrite index_mem_true. naive_solver.
Qed.
End IndexFacts.

(** ** Registry *)

Lemma manager_eq (m m' : ConnectionManager) :
  active_connections m = active_connections m' →
  role_connections m = role_connections m' →
  channel_subscriptions m = channel_subscriptions m' →
  ws_to_user m = ws_to_user m' →
  ws_to_role m = ws_to_role m' →
  m = m'.
Proof. destruct m, m'; simpl; intros; by subst. Qed.

Lemma discard_all_lookup (c : WebSocket) (cs : gmap string (gset WebSocket))
    (channel : string) :
  ((λ s : gset WebSocket, s ∖ {[c]}) <$> cs) !! channel
  = (λ s, s ∖ {[c]}) <$> cs !! channel.
Proof. apply lookup_fmap. Qed.

(** After [disconnect], no topic set holds the connection. *)
Lemma disconnect_unsubscribes_all c m :
  ¬ index_holds c (channel_subscriptions (disconnect c m)).
Proof.
  intros (k & s & Hk & Hin). simpl in Hk.
  rewrite discard_all_lookup in Hk.
  destruct (channel_subscriptions m !! k); simplify_eq/=. set_solver.
Qed.

Lemma disconnect_unmaps c m :
  ws_to_user (disconnect c m) !! c = None ∧
  ws_to_role (disconnect c m) !! c = None.
Proof. simpl. by rewrite !lookup_delete_eq. Qed.

(** [disconnect c] touches the registrations of no other connection. *)
Lemma disconnect_same_entries c x m :
  x ≠ c → same_entries x m (disconnect c m).
Proof.
  intros Hne. unfold same_entries. simpl. repeat split.
  - by rewrite lookup_delete_ne.
  - by rewrite lookup_delete_ne.
  - intros u. destruct (ws_to_user m !! c) as [u'|]; [|done]. simpl.
    case_bool_decide; [|done]. by apply index_mem_discard_other.
  - intros r. destruct (ws_to_role m !! c) as [r'|]; [|done]. simpl.
    case_bool_decide; [|done]. by apply index_mem_discard_other.
  - intros ch. unfold index_mem. rewrite discard_all_lookup.
    destruct (channel_subscriptions m !! ch) as [s|]; simpl; [|done].
    apply bool_decide_ext. set_solver.
Qed.

Lemma disconnect_unregistered_id c m :
  unregistered m c → disconnect c m = m.
Proof.
  intros (Hu & Hr & Hc). apply manager_eq; simpl.
  - by rewrite Hu.
  - by rewrite Hr.
  - apply map_eq. intros ch. rewrite discard_all_lookup.
    destruct (channel_subscriptions m !! ch) as [s|] eqn:E; simpl; [|done].
    f_equal. apply set_eq. intros y. rewrite elem_of_difference.
    split; [naive_solver|]. intros Hy. split; [done|].
    intros ->%elem_of_singleton. apply Hc. by exists ch, s.
  - by apply delete_id.
  - by apply delete_id.
Qed.

Lemma absent_unregistered c m : absent m c → unregistered m c.
Proof. intros (Hu & Hr & _ & _ & Hc). by repeat split. Qed.

Lemma disconnect_unregistered c m : unregistered (disconnect c m) c.
Proof.
  split; [apply disconnect_unmaps|].
  split; [apply disconnect_unmaps | apply disconnect_unsubscribes_all].
Qed.

(** Operations that neither register nor subscribe [c] keep it
    unregistered. *)
Lemma apply_op_unregistered c op m :
  unregistered m c → ¬ adds c op → unregistered (apply_op m op) c.
Proof.
  intros (Hu & Hr & Hc) Hop.
  destruct op as [ws u r | ws | ws ch | ws ch]; simpl in *.
  - repeat split; simpl; [by rewrite lookup_insert_ne..|done].
  - repeat split; simpl.
    + rewrite lookup_delete. by case_decide.
    + rewrite lookup_delete. by case_decide.
    + intros (k & s & Hk & Hin). rewrite discard_all_lookup in Hk.
      destruct (channel_subscriptions m !! k) as [s0|] eqn:E;
        simplify_eq/=. apply Hc. exists k, s0. set_solver.
  - repeat split; simpl; [done..|].
    intros (k & s & Hk & Hin). destruct (decide (ch = k)) as [<-|Hne].
    + rewrite index_add_lookup in Hk. simplify_eq.
      apply elem_of_union in Hin as [Hin|Hin]; [set_solver|].
      destruct (channel_subscriptions m !! ch) as [s0|] eqn:E;
        simpl in Hin; [|set_solver].
      apply Hc. by exists ch, s0.
    + rewrite index_add_lookup_ne in Hk by done. apply Hc. by exists k, s.
  - repeat split; simpl; [done..|].
    intros (k & s & Hk & Hin). destruct (decide (ch = k)) as [<-|Hne].
    + rewrite index_discard_lookup in Hk.
      destruct (channel_subscriptions m !! ch) as [s0|] eqn:E;
        simpl in Hk; [|done].
      case_decide; simplify_eq. apply Hc. exists ch, s0. set_solver.
    + rewrite index_discard_lookup_ne in Hk by done.
      apply Hc. by exists k, s.
Qed.

Lemma apply_ops_unregistered c ops m :
  unregistered m c → Forall (λ op, ¬ adds c op) ops →
  unregistered (apply_ops m ops) c.
Proof.
  intros Hm Hops. revert m Hm.
  induction Hops as [|op ops Hop _ IH]; intros m Hm; [done|].
  apply IH. by apply apply_op_unregistered.
Qed.

Lemma disconnect_twice c m : disconnect c (disconnect c m) = disconnect c m.
Proof.
  apply manager_eq.
  - change (active_connections (disconnect c (disconnect c m)))
      with (match ws_to_user (disconnect c m) !! c with
            | Some u => if truthy_int (ws_to_user (disconnect c m) !! c)
                        then index_discard u c
                               (active_connections (disconnect c m))
                        else active_connections (disconnect c m)
            | None => active_connections (disconnect c m)
            end).
    by rewrite (proj1 (disconnect_unmaps c m)).
  - change (role_connections (disconnect c (disconnect c m)))
      with (match ws_to_role (disconnect c m) !! c with
            | Some r => if truthy_str (ws_to_role (disconnect c m) !! c)
                        then index_discard r c
                               (role_connections (disconnect c m))
                        else role_connections (disconnect c m)
            | None => role_connections (disconnect c m)
            end).
    by rewrite (proj2 (disconnect_unmaps c m)).
  - simpl. apply map_eq. intros ch. rewrite !discard_all_lookup.
    destruct (channel_subscriptions m !! ch) as [s|]; simpl; [|done].
    f_equal. set_solver.
  - simpl. apply delete_id. apply lookup_delete_eq.
  - simpl. apply delete_id. apply lookup_delete_eq.
Qed.

(** C8. Unregister is idempotent. Let the connection be not in the
    registry: it occurs in none of the five structures, or it has been
    unregistered and no later operation has registered or subscribed it
    again. Then [disconnect], a total function that raises nothing,
    returns the registry as it was, every index and mapping included. *)
Theorem disconnect_idempotent (m : ConnectionManager) (c : WebSocket) :
  absent m c ∨
  (∃ m0 ops, m = apply_ops (disconnect c m0) ops ∧
             Forall (λ op, ¬ adds c op) ops) →
  disconnect c m = m.
Proof.
  intros [Habs | (m0 & ops & -> & Hops)]; apply disconnect_unregistered_id.
  - by apply absent_unregistered.
  - apply apply_ops_unregistered; [apply disconnect_unregistered | done].
Qed.

(** C9. Topic membership is a single membership per connection and topic:
    a second [subscribe_to_channel] changes nothing, and after subscribing
    twice one [unsubscribe_from_channel] leaves the connection not
    subscribed. *)
Theorem subscribe_twice_unsubscribe_once (m : ConnectionManager)
    (c : WebSocket) (T : string) :
  subscribe_to_channel c T (subscribe_to_channel c T m)
    = subscribe_to_channel c T m ∧
  subscribed
    (unsubscribe_from_channel c T
       (subscribe_to_channel c T (subscribe_to_channel c T m))) c T
    = false.
Proof.
  split.
  - apply manager_eq; simpl; try done.
    apply map_eq. intros ch. destruct (decide (T = ch)) as [<-|Hne].
    + rewrite !index_add_lookup. simpl. f_equal. set_solver.
    + by rewrite !index_add_lookup_ne.
  - unfold subscribed. simpl. apply index_mem_discard.
Qed.

(** Where [disconnect] does remove a connection from every index: in a
    sound registry. *)
Lemma disconnect_sound_absent c m : sound m → absent (disconnect c m) c.
Proof.
  intros (Hact & Hrole & Hnz & Hne).
  split; [apply disconnect_unmaps|]. split; [apply disconnect_unmaps|].
  split; [|split; [|apply disconnect_unsubscribes_all]].
  - intros (k & Hk)%index_holds_mem. simpl in Hk.
    destruct (ws_to_user m !! c) as [u|] eqn:E.
    + unfold truthy_int in Hk. rewrite bool_decide_eq_true_2 in Hk
        by (intros ->; by apply (Hnz c)).
      apply index_mem_discard_true in Hk as [Hk Hku].
      apply Hact in Hk. apply Hku; congruence.
    + apply Hact in Hk. congruence.
  - intros (k & Hk)%index_holds_mem. simpl in Hk.
    destruct (ws_to_role m !! c) as [r|] eqn:E.
    + unfold truthy_str in Hk. rewrite bool_decide_eq_true_2 in Hk
        by (intros ->; by apply (Hne c)).
      apply index_mem_discard_true in Hk as [Hk Hkr].
      apply Hrole in Hk. apply Hkr; congruence.
    + apply Hrole in Hk. congruence.
Qed.

Lemma new_manager_sound : sound new_manager.
Proof.
  repeat split; simpl; intros; try by rewrite lookup_empty.
  all: by unfold index_mem in *; rewrite lookup_empty in *.
Qed.

Lemma apply_op_sound op m : sound m → proper m op → sound (apply_op m op).
Proof.
  intros (Hact & Hrole & Hnz & Hne) Hop.
  destruct op as [ws u r | ws | ws ch | ws ch]; simpl in *; [| |done..].
  - destruct Hop as (Hu & Hr & Hu0 & Hr0). repeat split; simpl.
    + intros x k [[-> ->]|Hk]%index_mem_add_iff.
      * by rewrite lookup_insert_eq.
      * rewrite lookup_insert_ne; [by apply Hact|].
        intros ->. apply Hact in Hk. congruence.
    + intros x k [[-> ->]|Hk]%index_mem_add_iff.
      * by rewrite lookup_insert_eq.
      * rewrite lookup_insert_ne; [by apply Hrole|].
        intros ->. apply Hrole in Hk. congruence.
    + intros x. rewrite lookup_insert. case_decide; [congruence|apply Hnz].
    + intros x. rewrite lookup_insert. case_decide; [congruence|apply Hne].
  - pose proof (disconnect_sound_absent ws m
                  (conj Hact (conj Hrole (conj Hnz Hne))))
      as (_ & _ & Hnoact & Hnorole & _).
    repeat split.
    + intros x k Hk. destruct (decide (x = ws)) as [->|Hx].
      * exfalso. apply Hnoact, index_holds_mem. by exists k.
      * destruct (disconnect_same_entries ws x m Hx) as (Eu & _ & Ea & _).
        rewrite Eu. apply Hact. by rewrite <- Ea.
    + intros x k Hk. destruct (decide (x = ws)) as [->|Hx].
      * exfalso. apply Hnorole, index_holds_mem. by exists k.
      * destruct (disconnect_same_entries ws x m Hx)
          as (_ & Er & _ & Ea & _).
        rewrite Er. apply Hrole. by rewrite <- Ea.
    + intros x. simpl. rewrite lookup_delete. case_decide; [done|apply Hnz].
    + intros x. simpl. rewrite lookup_delete. case_decide; [done|apply Hne].
Qed.

Lemma apply_ops_sound ops m :
  sound m → well_formed m ops → sound (apply_ops m ops).
Proof.
  revert m. induction ops as [|op ops IH]; intros m Hm Hops; [done|].
  destruct Hops as [Hop Hops]. simpl. apply IH; [|done].
  by apply apply_op_sound.
Qed.

(** What C1 asks for does hold along sequences that register only
    connections that are not registered, under truthy user ids and
    roles. *)
Lemma unregister_after_well_formed ops c :
  well_formed new_manager ops →
  absent (disconnect c (apply_ops new_manager ops)) c.
Proof.
  intros Hops. apply disconnect_sound_absent.
  by apply apply_ops_sound; [apply new_manager_sound|].
Qed.

(** C1, on the code: a connection registered under user id [0] is still in
    the by-user set of [0] after [disconnect], and one registered under the
    empty role is still in the by-role set of [""]: the guards
    [if user_id and ...] and [if role and ...] skip the removal for the
    falsy values [0] and [""]. *)
Theorem disconnect_keeps_falsy_keys (m : ConnectionManager) (c : WebSocket)
    (user_id : Z) (role : string) :
  index_mem 0 c (active_connections (disconnect c (register c 0 role m)))
    = true ∧
  index_mem "" c (role_connections (disconnect c (register c user_id "" m)))
    = true.
Proof.
  split.
  - unfold disconnect. simpl. rewrite lookup_insert_eq. simpl.
    apply index_mem_add.
  - unfold disconnect. simpl. rewrite lookup_insert_eq. simpl.
    apply index_mem_add.
Qed.

(** C5, on the code: when the last subscriber of a topic is unregistered,
    [disconnect] empties the topic's set but keeps its key, so the topic
    index maps the key to the empty set. *)
Theorem disconnect_keeps_empty_topic (c : WebSocket) (user_id : Z)
    (role T : string) :
  channel_subscriptions
    (disconnect c
       (subscribe_to_channel c T (register c user_id role new_manager))) !! T
  = Some ∅.
Proof.
  simpl. rewrite discard_all_lookup, index_add_lookup, lookup_empty. simpl.
  f_equal. set_solver.
Qed.

(** The half of C5 that the code does implement: [subscribe_to_channel]
    and [unsubscribe_from_channel] never leave an empty topic behind. *)
Lemma subscribe_no_empty_topic c T m :
  no_empty_topic m → no_empty_topic (subscribe_to_channel c T m).
Proof.
  intros Hm ch s. simpl. destruct (decide (T = ch)) as [<-|Hne].
  - rewrite index_add_lookup. intros [= <-]. set_solver.
  - rewrite index_add_lookup_ne by done. apply Hm.
Qed.

Lemma unsubscribe_no_empty_topic c T m :
  no_empty_topic m → no_empty_topic (unsubscribe_from_channel c T m).
Proof.
  intros Hm ch s. simpl. destruct (decide (T = ch)) as [<-|Hne].
  - rewrite index_discard_lookup.
    destruct (channel_subscriptions m !! T) as [s0|]; simpl; [|done].
    case_decide; [done|]. by intros [= <-].
  - rewrite index_discard_lookup_ne by done. apply Hm.
Qed.

(** ** Worlds and the wire *)

Lemma bind_run {A B} (c : M A) (k : A → M B) w a w' :
  c w = (Ok a, w') → bind c k w = k a w'.
Proof. unfold bind. by intros ->. Qed.

Lemma bind_raise {A B} (c : M A) (k : A → M B) w e w' :
  c w = (Raise e, w') → bind c k w = (Raise e, w').
Proof. unfold bind. by intros ->. Qed.

Lemma emits_nil w : emits [] w = w.
Proof. destruct w. unfold emits. simpl. by rewrite app_nil_r. Qed.

Lemma with_manager_id w : with_manager (manager w) w = w.
Proof. by destruct w. Qed.

Lemma events_of_emits {A} (c : M A) w m' evs :
  after c w = with_manager m' (emits evs w) → events_of c w = evs.
Proof.
  intros E. unfold events_of. rewrite E. simpl. by rewrite drop_app_length.
Qed.

Lemma attempt_target w message x : target (attempt w message x) = x.
Proof. unfold attempt. by destruct (send_text_raises _ _ _). Qed.

(** In a list of attempts over distinct connections, one connection is
    addressed once if it is listed and never otherwise. *)
Lemma events_to_attempts w message c (l : list WebSocket) :
  NoDup l →
  events_to c (attempt w message <$> l)
  = if decide (c ∈ l) then [attempt w message c] else [].
Proof.
  unfold events_to. induction 1 as [|x l Hx Hl IH]; [done|].
  rewrite fmap_cons, filter_cons, attempt_target, IH.
  destruct (decide (x = c)) as [->|Hne].
  - rewrite (decide_True (P := c ∈ c :: l)) by apply list_elem_of_here.
    by rewrite decide_False.
  - destruct (decide (c ∈ l)) as [Hin|Hout].
    + by rewrite (decide_True (P := c ∈ x :: l)) by by apply list_elem_of_further.
    + rewrite (decide_False (P := c ∈ x :: l)); [done|].
      intros [->|?]%elem_of_cons; done.
Qed.

(** ** The send loop and the clean-up *)

Lemma send_loop_spec targets message disconnected w :
  send_loop targets message disconnected w
  = (Ok (list_to_set
           (filter (λ x, send_text_raises (transport w) x message = true)
                   targets) ∪ disconnected),
     emits (attempt w message <$> targets) w).
Proof.
  revert disconnected w.
  induction targets as [|x targets IH]; intros disconnected w.
  - simpl. unfold ret. rewrite emits_nil. f_equal. f_equal. set_solver.
  - simpl. unfold bind at 1, try_except, bind at 1, send_text, ret.
    rewrite filter_cons. unfold attempt at 1.
    destruct (send_text_raises (transport w) x message) eqn:E; simpl.
    + rewrite IH. f_equal.
      * f_equal. set_solver.
      * unfold emits, emit, attempt. simpl. by rewrite <- app_assoc.
    + rewrite IH. f_equal.
      unfold emits, emit, attempt. simpl. by rewrite <- app_assoc.
Qed.

Lemma disconnect_each_spec (l : list WebSocket) w :
  for_each l (λ ws, modify_manager (disconnect ws)) w
  = (Ok tt, with_manager (foldl (λ m x, disconnect x m) (manager w) l) w).
Proof.
  revert w. induction l as [|x l IH]; intros w.
  - simpl. unfold ret. by rewrite with_manager_id.
  - simpl. unfold bind, modify_manager. rewrite IH. done.
Qed.

Lemma elem_of_failing w message targets x :
  x ∈ failing w message targets
  ↔ x ∈ targets ∧ send_text_raises (transport w) x message = true.
Proof.
  unfold failing. rewrite elem_of_list_to_set, list_elem_of_filter.
  rewrite elem_of_elements. naive_solver.
Qed.

(** A fan-out never raises: it makes one attempt per connection of the
    copied set and then unregisters those whose send raised. *)
Lemma fan_out_spec targets message w :
  fan_out targets message w
  = (Ok tt,
     with_manager
       (foldl (λ m x, disconnect x m) (manager w)
              (elements (failing w message targets)))
       (emits (attempt w message <$> elements targets) w)).
Proof.
  unfold fan_out, bind. rewrite send_loop_spec.
  unfold clean_up. rewrite disconnect_each_spec. simpl.
  f_equal. f_equal. f_equal. f_equal. unfold failing. set_solver.
Qed.

Lemma deliver_spec message sel w :
  deliver message sel w
  = (Ok tt,
     with_manager
       (foldl (λ m x, disconnect x m) (manager w)
              (elements (failing w message (snapshot sel (manager w)))))
       (emits (attempt w message <$> elements (snapshot sel (manager w))) w)).
Proof.
  assert (Hempty : (Ok tt, w) =
    (Ok tt, with_manager
       (foldl (λ m x, disconnect x m) (manager w)
              (elements (failing w message ∅)))
       (emits (attempt w message <$> elements (∅ : gset WebSocket)) w))).
  { unfold failing. rewrite elements_empty. simpl.
    rewrite elements_empty. simpl. by rewrite emits_nil, with_manager_id. }
  destruct sel as [|u|r|ch]; simpl.
  - unfold broadcast, bind, get_manager. apply fan_out_spec.
  - unfold send_to_user, bind, get_manager.
    destruct (active_connections (manager w) !! u); simpl;
      [apply fan_out_spec | apply Hempty].
  - unfold send_to_role, bind, get_manager.
    destruct (role_connections (manager w) !! r); simpl;
      [apply fan_out_spec | apply Hempty].
  - unfold send_to_channel, bind, get_manager.
    destruct (channel_subscriptions (manager w) !! ch); simpl;
      [apply fan_out_spec | apply Hempty].
Qed.

(** ** Fan-out: what the other connections keep *)

Lemma same_entries_refl x m : same_entries x m m.
Proof. by unfold same_entries. Qed.

Lemma same_entries_trans x m1 m2 m3 :
  same_entries x m1 m2 → same_entries x m2 m3 → same_entries x m1 m3.
Proof.
  intros (a1 & a2 & a3 & a4 & a5) (b1 & b2 & b3 & b4 & b5).
  unfold same_entries. repeat split; intros; congruence.
Qed.

Lemma disconnect_all_same_entries (l : list WebSocket) x m :
  x ∉ l → same_entries x m (foldl (λ m y, disconnect y m) m l).
Proof.
  revert m. induction l as [|y l IH]; intros m Hx; simpl.
  - apply same_entries_refl.
  - apply not_elem_of_cons in Hx as [Hne Hx].
    eapply same_entries_trans; [|by apply IH].
    by apply disconnect_same_entries.
Qed.

Lemma subscribed_snapshot m x channel :
  subscribed m x channel = true ↔ x ∈ snapshot (ToChannel channel) m.
Proof.
  unfold subscribed. rewrite index_mem_true. simpl.
  destruct (channel_subscriptions m !! channel) as [s|]; simpl.
  - naive_solver.
  - split; [naive_solver | set_solver].
Qed.

Lemma subscribed_false_snapshot m x channel :
  subscribed m x channel = false ↔ x ∉ snapshot (ToChannel channel) m.
Proof.
  rewrite <- subscribed_snapshot. by destruct (subscribed m x channel).
Qed.

(** Unregistering connections subscribes nobody. *)
Lemma disconnect_all_subscribed (l : list WebSocket) x channel m :
  subscribed (foldl (λ m y, disconnect y m) m l) x channel = true →
  subscribed m x channel = true.
Proof.
  revert m. induction l as [|y l IH]; intros m; simpl; [done|].
  intros Hs%IH. revert Hs. unfold subscribed, index_mem. simpl.
  rewrite discard_all_lookup.
  destruct (channel_subscriptions m !! channel) as [s|]; simpl; [|done].
  rewrite !bool_decide_eq_true. set_solver.
Qed.

(** What the fan-out does implement of C2. Let exactly one connection
    [c] of the [N] connections a fan-out method copies (broadcast, by
    user, by role or by topic) have a failing send. Then the method
    returns normally; it makes [N] sends, one per connection, and each of
    the other [N-1] connections is sent the event; the failing one is the
    only connection [disconnect] is applied to, so it leaves both reverse
    mappings and every topic set (and, in a sound registry, every index);
    and every registration of every other connection is as it was. *)
Lemma one_failure_is_isolated (sel : selector) (message : Message)
    (w : World) (c : WebSocket) :
  c ∈ snapshot sel (manager w) →
  (∀ x, x ∈ snapshot sel (manager w) →
        send_text_raises (transport w) x message = true ↔ x = c) →
  outcome (deliver message sel) w = Ok tt ∧
  length (events_of (deliver message sel) w)
  = size (snapshot sel (manager w)) ∧
  (∀ x, x ∈ snapshot sel (manager w) → x ≠ c →
        events_to x (events_of (deliver message sel) w) = [EvSent x message]) ∧
  events_to c (events_of (deliver message sel) w) = [EvSendFailed c message] ∧
  manager (after (deliver message sel) w) = disconnect c (manager w) ∧
  (sound (manager w) → absent (manager (after (deliver message sel) w)) c) ∧
  (∀ x, x ≠ c →
        same_entries x (manager w) (manager (after (deliver message sel) w))) ∧
  ws_to_user (manager (after (deliver message sel) w)) !! c = None ∧
  ws_to_role (manager (after (deliver message sel) w)) !! c = None ∧
  ¬ index_holds c
      (channel_subscriptions (manager (after (deliver message sel) w))).
Proof.
  intros Hc Hone.
  assert (Hfail : failing w message (snapshot sel (manager w)) = {[c]}).
  { apply set_eq. intros x. rewrite elem_of_failing, elem_of_singleton.
    split.
    - intros [Hx Hr]. by apply (Hone x Hx).
    - intros ->. split; [done|]. by apply (Hone c Hc). }
  assert (Hev : events_of (deliver message sel) w
                = attempt w message <$> elements (snapshot sel (manager w))).
  { eapply events_of_emits. unfold after. by rewrite deliver_spec. }
  assert (Hm : manager (after (deliver message sel) w)
               = disconnect c (manager w)).
  { unfold after. rewrite deliver_spec, Hfail, elements_singleton. done. }
  rewrite Hev, Hm. unfold outcome. rewrite deliver_spec. simpl.
  split; [done|]. split; [by rewrite length_fmap|].
  split; [|split; [|split; [done|split; [apply disconnect_sound_absent|split]]]].
  - intros x Hx Hne. rewrite events_to_attempts by apply NoDup_elements.
    rewrite decide_True by by apply elem_of_elements.
    unfold attempt. destruct (send_text_raises _ x message) eqn:E; [|done].
    by apply (Hone x Hx) in E.
  - rewrite events_to_attempts by apply NoDup_elements.
    rewrite decide_True by by apply elem_of_elements.
    unfold attempt. by rewrite (proj2 (Hone c Hc) eq_refl).
  - intros x Hne. by apply disconnect_same_entries.
  - split; [apply disconnect_unmaps|].
    split; [apply disconnect_unmaps | apply disconnect_unsubscribes_all].
Qed.

Lemma role_snapshot m x role :
  x ∈ snapshot (ToRole role) m
  ↔ index_mem role x (role_connections m) = true.
Proof.
  rewrite index_mem_true. simpl.
  destruct (role_connections m !! role) as [s|]; simpl.
  - naive_solver.
  - split; [set_solver | naive_solver].
Qed.

Lemma disconnect_keeps_user_0 (y x : WebSocket) (m : ConnectionManager) :
  index_mem 0 x (active_connections (disconnect y m))
  = index_mem 0 x (active_connections m).
Proof.
  unfold disconnect. simpl.
  destruct (ws_to_user m !! y) as [u|]; [|done]. simpl.
  case_bool_decide as Hu; [|done].
  unfold index_mem. by rewrite index_discard_lookup_ne.
Qed.

Lemma disconnect_keeps_empty_role (y x : WebSocket) (m : ConnectionManager) :
  index_mem "" x (role_connections (disconnect y m))
  = index_mem "" x (role_connections m).
Proof.
  unfold disconnect. simpl.
  destruct (ws_to_role m !! y) as [r|]; [|done]. simpl.
  case_bool_decide as Hr; [|done].
  unfold index_mem. by rewrite index_discard_lookup_ne.
Qed.

Lemma disconnect_all_keeps_falsy (l : list WebSocket) (x : WebSocket)
    (m : ConnectionManager) :
  index_mem 0 x (active_connections (foldl (λ m y, disconnect y m) m l))
  = index_mem 0 x (active_connections m) ∧
  index_mem "" x (role_connections (foldl (λ m y, disconnect y m) m l))
  = index_mem "" x (role_connections m).
Proof.
  revert m. induction l as [|y l IH]; intros m; [done|]. simpl.
  destruct (IH (disconnect y m)) as [-> ->].
  split; [apply disconnect_keeps_user_0 | apply disconnect_keeps_empty_role].
Qed.

(** What [broadcast] addresses: the connections some by-user set holds. *)
Lemma elem_of_all_websockets (m : ConnectionManager) (x : WebSocket) :
  x ∈ all_websockets m ↔ index_holds x (active_connections m).
Proof.
  unfold all_websockets, index_holds. rewrite elem_of_union_list. split.
  - intros (s & Hs & Hx). apply list_elem_of_fmap in Hs as ([k s'] & -> & Hin).
    apply elem_of_map_to_list in Hin. by exists k, s'.
  - intros (k & s & Hl & Hx). exists s. split; [|done].
    apply list_elem_of_fmap. exists (k, s). split; [done|].
    by apply elem_of_map_to_list.
Qed.

(** C2, on the code: a connection registered under user id [0] (or under
    the empty role) whose send fails during a fan-out is not removed from
    the registry. The fan-out applies [disconnect] to it, and the guards
    [if user_id and ...] and [if role and ...] of [disconnect] skip the
    removal: the connection is still in the by-user set of [0], the next
    broadcast addresses it again, and it is not absent from the
    registry. *)
Theorem failed_send_keeps_falsy_keys (sel : selector) (message : Message)
    (w : World) (c : WebSocket) :
  c ∈ snapshot sel (manager w) →
  send_text_raises (transport w) c message = true →
  events_to c (events_of (deliver message sel) w) = [EvSendFailed c message] ∧
  (index_mem 0 c (active_connections (manager w)) = true →
   index_mem 0 c
     (active_connections (manager (after (deliver message sel) w))) = true ∧
   c ∈ snapshot ToAll (manager (after (deliver message sel) w)) ∧
   ¬ absent (manager (after (deliver message sel) w)) c) ∧
  (index_mem "" c (role_connections (manager w)) = true →
   index_mem "" c
     (role_connections (manager (after (deliver message sel) w))) = true ∧
   c ∈ snapshot (ToRole "") (manager (after (deliver message sel) w)) ∧
   ¬ absent (manager (after (deliver message sel) w)) c).
Proof.
  intros Hc Hraises.
  assert (Hev : events_of (deliver message sel) w
                = attempt w message <$> elements (snapshot sel (manager w))).
  { eapply events_of_emits. unfold after. by rewrite deliver_spec. }
  rewrite Hev. unfold after. rewrite deliver_spec. simpl.
  destruct (disconnect_all_keeps_falsy
              (elements (failing w message (snapshot sel (manager w))))
              c (manager w)) as [Huser Hrole].
  split; [|split].
  - rewrite events_to_attempts by apply NoDup_elements.
    rewrite decide_True by by apply elem_of_elements.
    unfold attempt. by rewrite Hraises.
  - intros Hzero. rewrite <- Huser in Hzero. split; [done|].
    assert (Hholds : index_holds c (active_connections
              (foldl (λ m y, disconnect y m) (manager w)
                 (elements (failing w message (snapshot sel (manager w)))))))
      by (apply index_holds_mem; by exists 0).
    split; [by apply elem_of_all_websockets|].
    by intros (_ & _ & Habs & _).
  - intros Hempty. rewrite <- Hrole in Hempty. split; [done|].
    split; [by apply role_snapshot|].
    intros (_ & _ & _ & Habs & _). apply Habs, index_holds_mem. by exists "".
Qed.

(** ** Publishers *)

Lemma events_to_app c evs1 evs2 :
  events_to c (evs1 ++ evs2) = events_to c evs1 ++ events_to c evs2.
Proof. apply filter_app. Qed.

(** The two topic fan-outs of [broadcast_sensor_update], one after the
    other: the second copies the per-sensor set of the registry the first
    one leaves. *)
Lemma broadcast_sensor_update_spec metric w :
  ∃ m1 m2,
    (∀ x channel, subscribed m1 x channel = true
                  → subscribed (manager w) x channel = true) ∧
    (∀ x, x ∉ snapshot (ToChannel "sensor_updates") (manager w)
          → same_entries x (manager w) m1) ∧
    broadcast_sensor_update metric w
    = (Ok tt,
       with_manager m2
         (emits
            ((attempt w (sensor_update metric) <$>
                elements (snapshot (ToChannel "sensor_updates") (manager w)))
             ++ (attempt w (sensor_update metric) <$>
                   elements
                     (snapshot
                        (ToChannel ("sensor_" +:+ pretty (sensor_id metric)))
                        m1)))
            w)).
Proof.
  set (msg := sensor_update metric).
  set (S1 := snapshot (ToChannel "sensor_updates") (manager w)).
  set (m1 := foldl (λ m x, disconnect x m) (manager w)
                   (elements (failing w msg S1))).
  exists m1. eexists. split; [|split].
  - intros x channel. apply disconnect_all_subscribed.
  - intros x Hx. apply disconnect_all_same_entries.
    rewrite elem_of_elements, elem_of_failing. naive_solver.
  - unfold broadcast_sensor_update, bind.
    change (send_to_channel (sensor_update metric) "sensor_updates")
      with (deliver msg (ToChannel "sensor_updates")).
    rewrite deliver_spec. fold S1. fold m1.
    change (send_to_channel (sensor_update metric)
              ("sensor_" +:+ pretty (sensor_id metric)))
      with (deliver msg
              (ToChannel ("sensor_" +:+ pretty (sensor_id metric)))).
    rewrite deliver_spec. simpl manager.
    f_equal. unfold emits, with_manager. simpl. by rewrite <- app_assoc.
Qed.

(** C7. A published sensor update is sent only on the two topic fan-outs:
    every send it makes carries the [sensor_update] event to a connection
    subscribed to ["sensor_updates"] or to ["sensor_<id>"] of the metric's
    sensor. A connection subscribed to the per-sensor topic and not to the
    generic one is sent the event exactly once (and receives it unless its
    own send fails); a connection subscribed to neither is sent nothing. *)
Theorem sensor_update_goes_to_subscribers_only (metric : Metric) (w : World)
    (c : WebSocket) :
  outcome (broadcast_sensor_update metric) w = Ok tt ∧
  (∀ e, e ∈ events_of (broadcast_sensor_update metric) w →
        e = attempt w (sensor_update metric) (target e) ∧
        (subscribed (manager w) (target e) "sensor_updates" = true ∨
         subscribed (manager w) (target e)
           ("sensor_" +:+ pretty (sensor_id metric)) = true)) ∧
  (subscribed (manager w) c "sensor_updates" = false →
   subscribed (manager w) c ("sensor_" +:+ pretty (sensor_id metric)) = true →
   events_to c (events_of (broadcast_sensor_update metric) w)
   = [attempt w (sensor_update metric) c]) ∧
  (subscribed (manager w) c "sensor_updates" = false →
   subscribed (manager w) c ("sensor_" +:+ pretty (sensor_id metric)) = false →
   events_to c (events_of (broadcast_sensor_update metric) w) = []).
Proof.
  destruct (broadcast_sensor_update_spec metric w)
    as (m1 & m2 & Hshrink & Hframe & Hrun).
  assert (Hev := events_of_emits (broadcast_sensor_update metric) w m2 _
                   (f_equal snd Hrun)).
  rewrite Hev. unfold outcome. rewrite Hrun.
  split; [done|]. split; [|split].
  - intros e [He|He]%elem_of_app.
    + apply list_elem_of_fmap in He as (x & -> & Hx).
      rewrite attempt_target. split; [done|]. left.
      apply subscribed_snapshot. by apply elem_of_elements.
    + apply list_elem_of_fmap in He as (x & -> & Hx).
      rewrite attempt_target. split; [done|]. right.
      apply Hshrink. apply subscribed_snapshot. by apply elem_of_elements.
  - intros Hgen%subscribed_false_snapshot Htopic.
    rewrite events_to_app, !events_to_attempts by apply NoDup_elements.
    rewrite decide_False by by rewrite elem_of_elements.
    rewrite decide_True; [done|].
    apply elem_of_elements, subscribed_snapshot.
    destruct (Hframe c Hgen) as (_ & _ & _ & _ & Hch).
    unfold subscribed. by rewrite Hch.
  - intros Hgen%subscribed_false_snapshot Htopic.
    rewrite events_to_app, !events_to_attempts by apply NoDup_elements.
    rewrite decide_False by by rewrite elem_of_elements.
    rewrite decide_False; [done|].
    rewrite elem_of_elements, <- subscribed_snapshot.
    intros Hs%Hshrink. congruence.
Qed.

(** ** Personal messages and [connect] *)

(** [send_personal_message] never raises: it makes one send attempt and
    unregisters the connection if that attempt fails. *)
Lemma send_personal_message_spec message websocket w :
  send_personal_message message websocket w
  = (Ok tt,
     with_manager
       (if send_text_raises (transport w) websocket message
        then disconnect websocket (manager w) else manager w)
       (emits [attempt w message websocket] w)).
Proof.
  unfold send_personal_message, try_except, send_text, attempt.
  by destruct (send_text_raises (transport w) websocket message).
Qed.

Lemma send_personal_message_events message websocket w :
  outcome (send_personal_message message websocket) w = Ok tt ∧
  events_of (send_personal_message message websocket) w
  = [attempt w message websocket].
Proof.
  split.
  - unfold outcome. by rewrite send_personal_message_spec.
  - eapply events_of_emits. unfold after.
    by rewrite send_personal_message_spec.
Qed.

(** C10. When [accept] succeeds, [connect] returns normally and what it
    does is: [accept], then the insertion into the by-user and by-role
    indexes, then one personal send to the same connection, carried out
    on the registry that already holds it. That send is the first and
    only outbound message of [connect]; it is a [connection_status]
    message whose status is ["connected"] and whose [user_id] and [role]
    are the ones given. *)
Theorem connect_sends_status_first (websocket : WebSocket) (user_id : Z)
    (role : string) (w : World) :
  accept_raises (transport w) websocket = false →
  connect websocket user_id role w
  = send_personal_message
      (connection_status (clock w (ticks w)) user_id role) websocket
      (tick (with_manager (register websocket user_id role (manager w))
                          (emit (EvAccept websocket) w))) ∧
  index_mem user_id websocket
    (active_connections (register websocket user_id role (manager w))) = true ∧
  index_mem role websocket
    (role_connections (register websocket user_id role (manager w))) = true ∧
  outcome (connect websocket user_id role) w = Ok tt ∧
  events_of (connect websocket user_id role) w
  = [EvAccept websocket;
     attempt w (connection_status (clock w (ticks w)) user_id role)
             websocket] ∧
  dict_get "type" (connection_status (clock w (ticks w)) user_id role)
  = Some (JStr "connection_status") ∧
  dict_get "status" (connection_status (clock w (ticks w)) user_id role)
  = Some (JStr "connected") ∧
  dict_get "user_id" (connection_status (clock w (ticks w)) user_id role)
  = Some (JInt user_id) ∧
  dict_get "role" (connection_status (clock w (ticks w)) user_id role)
  = Some (JStr role).
Proof.
  intros Haccept.
  assert (Hrun : connect websocket user_id role w
    = send_personal_message
        (connection_status (clock w (ticks w)) user_id role) websocket
        (tick (with_manager (register websocket user_id role (manager w))
                            (emit (EvAccept websocket) w)))).
  { unfold connect, bind at 1, accept. rewrite Haccept. done. }
  split; [done|].
  split; [apply index_mem_add|]. split; [apply index_mem_add|].
  split; [|split; [|done]].
  - unfold outcome. rewrite Hrun. apply send_personal_message_events.
  - unfold events_of, after. rewrite Hrun, send_personal_message_spec.
    simpl. rewrite <- app_assoc. by rewrite drop_app_length.
Qed.

(** ** The acknowledge handler *)

(** With a known, non-zero user id and an existing alert, the handler
    stamps the row, logs the action and hands the event to [broadcast],
    whatever the row's status was. *)
Lemma acknowledge_runs websocket message w user_id a i alert :
  ws_to_user (manager w) !! websocket = Some user_id →
  user_id ≠ 0 →
  dict_get "alert_id" message = Some (JStr a) →
  storage_fault (db w) = false →
  list_find (λ row, alert_id row = a) (alerts (db w)) = Some (i, alert) →
  _handle_acknowledge_alert websocket message w
  = (broadcast (alert_acknowledged (JStr a) user_id (clock w (S (ticks w)))) ;;
     send_personal_message (action_success "acknowledge_alert" (JStr a))
                           websocket)
      (tick (tick (with_db
         {| alerts :=
              <[i := acknowledged alert user_id (clock w (ticks w))
                       (dict_get_default "notes" (JStr "") message)]>
                (alerts (db w));
            alert_actions :=
              alert_actions (db w)
              ++ [acknowledge_action alert user_id
                    (dict_get_default "notes" (JStr "") message)];
            metrics := metrics (db w);
            storage_fault := storage_fault (db w) |} w))).
Proof.
  intros Hu Hnz Hid Hfault Hfind.
  unfold _handle_acknowledge_alert.
  rewrite (bind_run get_manager _ w (manager w) w) by done.
  rewrite Hu. unfold truthy_int. rewrite bool_decide_eq_true_2 by done.
  cbn [negb]. rewrite Hid. cbn [default].
  erewrite (bind_run (query_alert _));
    [|by unfold query_alert; rewrite Hfault, Hfind].
  cbv beta iota.
  erewrite (bind_run now) by done.
  erewrite (bind_run (store_alert _ _)) by done.
  erewrite (bind_run (db_add _)) by done.
  erewrite (bind_run db_commit);
    [|by unfold db_commit; simpl; rewrite Hfault].
  erewrite (bind_run now) by done.
  rewrite ?Hfault. reflexivity.
Qed.

(** C3, as the code has it. The acknowledge handler requires a known,
    non-zero user id and an existing alert, and nothing of the alert's
    status: for an alert in any state, [resolved] included, it sets the
    status to [acknowledged], stamps actor, time and notes, appends an
    action record, sends [alert_acknowledged] to every connection of the
    by-user index and then [action_success] to the sender. *)
Theorem acknowledge_ignores_status (websocket : WebSocket) (message : Message)
    (w : World) (user_id : Z) (a : string) (i : nat) (alert : Alert) :
  ws_to_user (manager w) !! websocket = Some user_id →
  user_id ≠ 0 →
  dict_get "alert_id" message = Some (JStr a) →
  storage_fault (db w) = false →
  list_find (λ row, alert_id row = a) (alerts (db w)) = Some (i, alert) →
  outcome (_handle_acknowledge_alert websocket message) w = Ok tt ∧
  alerts (db (after (_handle_acknowledge_alert websocket message) w))
  = <[i := acknowledged alert user_id (clock w (ticks w))
             (dict_get_default "notes" (JStr "") message)]> (alerts (db w)) ∧
  status (acknowledged alert user_id (clock w (ticks w))
            (dict_get_default "notes" (JStr "") message)) = ACKNOWLEDGED ∧
  alert_actions (db (after (_handle_acknowledge_alert websocket message) w))
  = alert_actions (db w)
    ++ [acknowledge_action alert user_id
          (dict_get_default "notes" (JStr "") message)] ∧
  events_of (_handle_acknowledge_alert websocket message) w
  = (attempt w (alert_acknowledged (JStr a) user_id (clock w (S (ticks w))))
       <$> elements (all_websockets (manager w)))
    ++ [attempt w (action_success "acknowledge_alert" (JStr a)) websocket].
Proof.
  intros Hu Hnz Hid Hfault Hfind.
  pose proof (acknowledge_runs _ _ _ _ _ _ _ Hu Hnz Hid Hfault Hfind) as Hrun.
  unfold outcome, events_of, after. rewrite Hrun. clear Hrun.
  unfold bind.
  change (broadcast ?m) with (deliver m ToAll).
  rewrite deliver_spec, send_personal_message_spec. simpl.
  repeat split. rewrite <- app_assoc. by rewrite drop_app_length.
Qed.

(** Without a known, non-zero user id, or when no row has the alert id,
    the handler returns without any effect. *)
Lemma acknowledge_noop websocket message w :
  truthy_int (ws_to_user (manager w) !! websocket) = false ∨
  (storage_fault (db w) = false ∧
   ∃ a, dict_get "alert_id" message = Some (JStr a) ∧
        list_find (λ row, alert_id row = a) (alerts (db w)) = None) →
  _handle_acknowledge_alert websocket message w = (Ok tt, w).
Proof.
  unfold _handle_acknowledge_alert, bind at 1, get_manager.
  intros [Hu | (Hfault & a & Hid & Hfind)].
  - by rewrite Hu.
  - destruct (truthy_int (ws_to_user (manager w) !! websocket)); [|done].
    simpl. unfold bind, query_alert. by rewrite Hid, Hfault, Hfind.
Qed.

(** C3, counterexample. The alert ["ALERT-1"] is resolved; user 7
    acknowledges it. Afterwards its status is [acknowledged], user 7 is
    its acknowledger, an action record has been added, and the
    [alert_acknowledged] event has been sent. *)
Lemma acknowledge_resolved_alert_changes_it :
  status <$> alerts (db resolved_world) !! 0%nat = Some RESOLVED ∧
  status <$>
    alerts (db (after (_handle_acknowledge_alert 1 acknowledge_alert_1)
                      resolved_world)) !! 0%nat
  = Some ACKNOWLEDGED ∧
  length (alert_actions
            (db (after (_handle_acknowledge_alert 1 acknowledge_alert_1)
                       resolved_world))) = 1%nat ∧
  events_of (_handle_acknowledge_alert 1 acknowledge_alert_1) resolved_world
  = [EvSent 1 (alert_acknowledged (JStr "ALERT-1") 7 (quiet_clock 1));
     EvSent 1 (action_success "acknowledge_alert" (JStr "ALERT-1"))].
Proof. vm_compute. done. Qed.

(** ** Analytics *)

(** The module never binds [timedelta]: line 6 imports [datetime] and
    [timezone] only. *)
Lemma timedelta_is_unbound w :
  load_global "timedelta" timedelta w = (Raise (NameError "timedelta"), w).
Proof. reflexivity. Qed.

(** C4, on the code: every analytics request with a [dict] of parameters
    reads the clock and then raises [NameError] at [timedelta], in each of
    the four branches of the window selection, the fallback included.
    Nothing is queried, bucketed or sent. *)
Theorem send_analytics_raises (websocket : WebSocket)
    (kv : list (string * json)) (w : World) :
  _send_analytics websocket (JObj kv) w
  = (Raise (NameError "timedelta"), tick w).
Proof.
  unfold _send_analytics.
  rewrite (bind_run (py_get (JObj kv) "metric_type") _ w
             (dict_get "metric_type" kv) w) by done.
  rewrite (bind_run (py_get (JObj kv) "time_range") _ w
             (dict_get "time_range" kv) w) by done.
  rewrite (bind_run now _ w (clock w (ticks w)) (tick w)) by done.
  apply bind_raise.
  repeat match goal with |- context [if ?b then _ else _] => destruct b end;
    apply bind_raise, timedelta_is_unbound.
Qed.

(** The bucketing code that is never reached does what the example of the
    spec expects: readings at 10:05, 10:50 and 11:05 with values 1, 3, 5
    give the buckets 10:00 (avg 2, min 1, max 3, count 2) and 11:00
    (avg 5, min 5, max 5, count 1), in ascending order. *)
Lemma bucketing_of_three_readings :
  (λ b, (timestamp b, Qred (avg b), Qred (min b), Qred (max b), count b))
    <$> time_series_of (merge_sort ts_desc three_readings)
  = [("2024-01-01 10:00:00", 2%Q, 1%Q, 3%Q, 2);
     ("2024-01-01 11:00:00", 5%Q, 5%Q, 5%Q, 1)].
Proof. vm_compute. reflexivity. Qed.

(** ** The dispatcher *)

Section Dispatcher.
Variable py_repr : json → string.
Variable _handle_subscribe : WebSocket → Message → M unit.
Variable _handle_unsubscribe : WebSocket → Message → M unit.
Variable _handle_resolve_alert : WebSocket → Message → M unit.
Variable _send_sensor_data : WebSocket → json → M unit.
Variable _send_alerts : WebSocket → json → M unit.
Variable _send_system_stats : WebSocket → M unit.

Local Notation dispatch :=
  (handle_websocket_message py_repr _handle_subscribe _handle_unsubscribe
     _handle_resolve_alert _send_sensor_data _send_alerts
     _send_system_stats).
Local Notation receive :=
  (handle_websocket_message_decoded py_repr _handle_subscribe
     _handle_unsubscribe _handle_resolve_alert _send_sensor_data _send_alerts
     _send_system_stats).
Local Notation chosen :=
  (handler_for _handle_subscribe _handle_unsubscribe _handle_resolve_alert
     _send_sensor_data _send_alerts _send_system_stats).

Lemma handler_for_None (message_type : option json) :
  chosen message_type = None
  ↔ ∀ s, s ∈ recognized_types → message_type ≠ Some (JStr s).
Proof.
  unfold handler_for, eq_str, recognized_types.
  destruct message_type as [[| | | |s| |]|];
    try (split; [by intros _ s _ | done]).
  split.
  - intros E s' Hin [= ->].
    repeat (apply elem_of_cons in Hin as [->|Hin]; [discriminate E|]).
    by apply elem_of_nil in Hin.
  - intros Hs.
    repeat (let Hc := fresh "Hc" in
            case_bool_decide as Hc;
            [exfalso; apply (Hs s); [rewrite Hc; in_list | done]|]).
    done.
Qed.

Lemma dispatch_unknown websocket message w :
  chosen (dict_get "type" message) = None →
  dispatch websocket message w
  = send_personal_message
      (error_message ("Unknown message type: "
                      +:+ py_str py_repr (dict_get "type" message)))
      websocket w.
Proof.
  intros Hnone. unfold handle_websocket_message, try_except.
  rewrite Hnone. by rewrite send_personal_message_spec.
Qed.

Lemma dispatch_raise websocket message w handler e w1 :
  chosen (dict_get "type" message) = Some handler →
  handler websocket message w = (Raise e, w1) →
  dispatch websocket message w
  = send_personal_message (error_message "Internal server error")
                          websocket w1.
Proof.
  intros Hsome Hrun. unfold handle_websocket_message, try_except.
  by rewrite Hsome, Hrun.
Qed.

(** C6. On every decoded message that is a JSON object the dispatcher
    returns normally, whatever the handlers do. A message whose type is
    none of the six recognized strings is answered with a personal
    ["error"] message that names the type; when the selected handler
    raises, the exception stops at the [try] and is answered with a
    personal ["error"] message, from the world the handler left. Either
    answer is a single [send_text] on the sender's connection: the
    dispatcher makes no other call on it, so it does not close it. On a
    decoded value that is not an object (a list, a string, a number, a
    boolean or null) the [AttributeError] of [message.get] reaches the
    caller and nothing is sent. *)
Theorem dispatcher_contains_errors (websocket : WebSocket)
    (message : json) (w : World) :
  (∀ fields, message = JObj fields →
     outcome (receive websocket message) w = Ok tt ∧
     (chosen (dict_get "type" fields) = None
      ↔ ∀ s, s ∈ recognized_types → dict_get "type" fields ≠ Some (JStr s)) ∧
     (∀ s, dict_get "type" fields = Some (JStr s) → s ∉ recognized_types →
           receive websocket message w
           = send_personal_message
               (error_message ("Unknown message type: " +:+ s)) websocket w) ∧
     (chosen (dict_get "type" fields) = None →
      receive websocket message w
      = send_personal_message
          (error_message ("Unknown message type: "
                          +:+ py_str py_repr (dict_get "type" fields)))
          websocket w) ∧
     (∀ handler e w1,
         chosen (dict_get "type" fields) = Some handler →
         handler websocket fields w = (Raise e, w1) →
         receive websocket message w
         = send_personal_message (error_message "Internal server error")
                                 websocket w1)) ∧
  ((∀ fields, message ≠ JObj fields) →
   receive websocket message w = (Raise (AttributeError "get"), w)) ∧
  (∀ text w1,
      dict_get "type" (error_message text) = Some (JStr "error") ∧
      dict_get "message" (error_message text) = Some (JStr text) ∧
      outcome (send_personal_message (error_message text) websocket) w1
      = Ok tt ∧
      events_of (send_personal_message (error_message text) websocket) w1
      = [attempt w1 (error_message text) websocket]).
Proof.
  split; [|split].
  - intros fields ->.
    change (receive websocket (JObj fields)) with (dispatch websocket fields).
    split; [|split; [apply handler_for_None|split; [|split]]].
    + unfold outcome, handle_websocket_message, try_except.
      destruct (chosen (dict_get "type" fields)) as [handler|].
      * destruct (handler websocket fields w) as [[[]|e] w1]; [done|].
        by rewrite send_personal_message_spec.
      * by rewrite send_personal_message_spec.
    + intros s Hty Hs. rewrite dispatch_unknown.
      * by rewrite Hty.
      * apply handler_for_None. intros s' Hin. rewrite Hty.
        intros [= ->]. done.
    + apply dispatch_unknown.
    + intros handler e w1. apply dispatch_raise.
  - intros Hother. destruct message; try done. by destruct (Hother kv).
  - intros text w1. split; [done|]. split; [done|].
    apply send_personal_message_events.
Qed.
End Dispatcher.

(** C6 as the spec states it fails on the decoded list [["ping"]]: the
    exception reaches the caller and the sender gets no reply. *)
Lemma non_object_message_reaches_caller :
  outcome (handle_websocket_message_decoded (λ _, "") no_handler no_handler
             no_handler no_sender no_sender (λ _, ret tt) 1 ping_in_a_list)
          blank_world
  = Raise (AttributeError "get") ∧
  events_of (handle_websocket_message_decoded (λ _, "") no_handler no_handler
               no_handler no_sender no_sender (λ _, ret tt) 1 ping_in_a_list)
            blank_world
  = [].
Proof. split; reflexivity. Qed.

(** The analytics request of the example world stops at [timedelta]. *)
Lemma analytics_request_raises :
  _handle_data_request no_sender no_sender (λ _, ret tt) 1 analytics_request
    analytics_world
  = (Raise (NameError "timedelta"), tick analytics_world).
Proof. reflexivity. Qed.

(** ** Instances on the example worlds *)

Lemma disconnect_idempotent_witness :
  disconnect 1 after_unregister = after_unregister.
Proof.
  apply (disconnect_idempotent after_unregister 1).
  right.
  exists (subscribe_to_channel 1 "alerts"
            (register 2 8 "admin" (register 1 7 "viewer" new_manager))).
  exists [OpSubscribe 2 "alerts"; OpUnregister 1].
  split; [reflexivity|].
  repeat constructor; simpl; intros H; discriminate H || exact H.
Defined.

Lemma one_failure_is_isolated_witness :
  outcome (deliver system_health (ToRole "ops")) ops_world = Ok tt ∧
  events_to 1 (events_of (deliver system_health (ToRole "ops")) ops_world)
  = [EvSent 1 system_health] ∧
  events_to 2 (events_of (deliver system_health (ToRole "ops")) ops_world)
  = [EvSendFailed 2 system_health] ∧
  manager (after (deliver system_health (ToRole "ops")) ops_world)
  = disconnect 2 (manager ops_world).
Proof.
  assert (H2 : 2%positive ∈ snapshot (ToRole "ops") (manager ops_world))
    by (vm_compute; reflexivity).
  assert (H1 : 1%positive ∈ snapshot (ToRole "ops") (manager ops_world))
    by (vm_compute; reflexivity).
  destruct (one_failure_is_isolated (ToRole "ops") system_health ops_world 2
              H2 (λ x _, bool_decide_eq_true (x = 2%positive)))
    as (Hok & _ & Hothers & Hc & Hm & _).
  split; [exact Hok|]. split; [|split; [exact Hc | exact Hm]].
  apply (Hothers 1%positive H1). discriminate.
Defined.

Lemma failed_send_keeps_falsy_keys_witness :
  events_to 2 (events_of (deliver system_health ToAll) zero_user_world)
  = [EvSendFailed 2 system_health] ∧
  2%positive ∈ snapshot ToAll
                 (manager (after (deliver system_health ToAll)
                                 zero_user_world)) ∧
  ¬ absent (manager (after (deliver system_health ToAll) zero_user_world)) 2.
Proof.
  assert (Hin : 2%positive ∈ snapshot ToAll (manager zero_user_world))
    by (vm_compute; reflexivity).
  destruct (failed_send_keeps_falsy_keys ToAll system_health zero_user_world
              2 Hin eq_refl) as (Hev & Hzero & _).
  split; [exact Hev|]. apply Hzero. vm_compute. reflexivity.
Defined.

Lemma sensor_update_goes_to_subscribers_only_witness :
  events_to 1 (events_of (broadcast_sensor_update (reading 42 21 1704103500))
                         sensor_42_world)
  = [EvSent 1 (sensor_update (reading 42 21 1704103500))] ∧
  events_to 1 (events_of (broadcast_sensor_update (reading 99 21 1704103500))
                         sensor_42_world)
  = [].
Proof.
  split.
  - apply (sensor_update_goes_to_subscribers_only
             (reading 42 21 1704103500) sensor_42_world 1);
      vm_compute; reflexivity.
  - apply (sensor_update_goes_to_subscribers_only
             (reading 99 21 1704103500) sensor_42_world 1);
      vm_compute; reflexivity.
Defined.

Lemma connect_sends_status_first_witness :
  outcome (connect 1 7 "traffic_control") blank_world = Ok tt ∧
  events_of (connect 1 7 "traffic_control") blank_world
  = [EvAccept 1;
     EvSent 1 (connection_status (quiet_clock 0) 7 "traffic_control")].
Proof.
  destruct (connect_sends_status_first 1 7 "traffic_control" blank_world
              eq_refl) as (_ & _ & _ & Hok & Hev & _).
  split; [exact Hok | exact Hev].
Defined.

Lemma acknowledge_ignores_status_witness :
  status resolved_alert = RESOLVED ∧
  alerts (db (after (_handle_acknowledge_alert 1 acknowledge_alert_1)
                    resolved_world))
  = [acknowledged resolved_alert 7 (quiet_clock 0) (JStr "")] ∧
  events_of (_handle_acknowledge_alert 1 acknowledge_alert_1) resolved_world
  = [EvSent 1 (alert_acknowledged (JStr "ALERT-1") 7 (quiet_clock 1));
     EvSent 1 (action_success "acknowledge_alert" (JStr "ALERT-1"))].
Proof.
  assert (Hu : ws_to_user (manager resolved_world) !! 1%positive = Some 7)
    by (vm_compute; reflexivity).
  assert (Hnz : (7 : Z) ≠ 0) by discriminate.
  destruct (acknowledge_ignores_status 1 acknowledge_alert_1 resolved_world
              7 "ALERT-1" 0 resolved_alert Hu Hnz eq_refl eq_refl eq_refl)
    as (_ & Hrows & _ & _ & Hev).
  split; [reflexivity|]. split; [exact Hrows | exact Hev].
Defined.

Lemma dispatcher_contains_errors_witness :
  handle_websocket_message_decoded (λ _, "") no_handler no_handler no_handler
    no_sender no_sender (λ _, ret tt) 1 (JObj bogus_message) blank_world
  = send_personal_message (error_message "Unknown message type: bogus") 1
                          blank_world ∧
  handle_websocket_message_decoded (λ _, "") no_handler no_handler no_handler
    no_sender no_sender (λ _, ret tt) 1 (JObj analytics_request)
    analytics_world
  = send_personal_message (error_message "Internal server error") 1
                          (tick analytics_world) ∧
  handle_websocket_message_decoded (λ _, "") no_handler no_handler no_handler
    no_sender no_sender (λ _, ret tt) 1 ping_in_a_list blank_world
  = (Raise (AttributeError "get"), blank_world).
Proof.
  split; [|split].
  - destruct (dispatcher_contains_errors (λ _, "") no_handler no_handler
                no_handler no_sender no_sender (λ _, ret tt)
                1 (JObj bogus_message) blank_world) as (Hobject & _).
    destruct (Hobject bogus_message eq_refl) as (_ & _ & Hunknown & _).
    apply (Hunknown "bogus" eq_refl).
    intros Hin.
    repeat (apply elem_of_cons in Hin as [Hin|Hin]; [discriminate Hin|]).
    by apply elem_of_nil in Hin.
  - destruct (dispatcher_contains_errors (λ _, "") no_handler no_handler
                no_handler no_sender no_sender (λ _, ret tt)
                1 (JObj analytics_request) analytics_world) as (Hobject & _).
    destruct (Hobject analytics_request eq_refl)
      as (_ & _ & _ & _ & Hraise).
    apply (Hraise (_handle_data_request no_sender no_sender (λ _, ret tt))
                  (NameError "timedelta") (tick analytics_world) eq_refl).
    apply analytics_request_raises.
  - destruct (dispatcher_contains_errors (λ _, "") no_handler no_handler
                no_handler no_sender no_sender (λ _, ret tt)
                1 ping_in_a_list blank_world) as (_ & Hother & _).
    apply Hother. intros fields Heq. discriminate Heq.
Defined.

(** * Further properties of the code *)

(** ** Registration *)

Lemma index_mem_add_other `{Countable K} (k k' : K) ws x
    (index : gmap K (gset WebSocket)) :
  x ≠ ws → index_mem k x (index_add k' ws index) = index_mem k x index.
Proof.
  intros Hne. destruct (index_mem k x index) eqn:E.
  - apply index_mem_add_iff. by right.
  - destruct (index_mem k x (index_add k' ws index)) eqn:E'; [|done].
    apply index_mem_add_iff in E' as [[_ ->]|E']; [done|congruence].
Qed.

(** X1. The registry mutation of [connect] makes the connection a member
    of its user's and its role's set and records both reverse mappings;
    it changes no topic and no registration of any other connection. *)
Theorem register_registers_only_it (websocket : WebSocket) (user_id : Z)
    (role : string) (m : ConnectionManager) :
  ws_to_user (register websocket user_id role m) !! websocket = Some user_id ∧
  ws_to_role (register websocket user_id role m) !! websocket = Some role ∧
  index_mem user_id websocket
    (active_connections (register websocket user_id role m)) = true ∧
  index_mem role websocket
    (role_connections (register websocket user_id role m)) = true ∧
  channel_subscriptions (register websocket user_id role m)
  = channel_subscriptions m ∧
  (∀ x, x ≠ websocket → same_entries x m (register websocket user_id role m)).
Proof.
  split; [apply lookup_insert_eq|]. split; [apply lookup_insert_eq|].
  split; [apply index_mem_add|]. split; [apply index_mem_add|].
  split; [done|]. intros x Hne. unfold same_entries. simpl.
  split; [by rewrite lookup_insert_ne|]. split; [by rewrite lookup_insert_ne|].
  split; [|split; [|done]]; intros k; by apply index_mem_add_other.
Qed.

Lemma index_discard_add `{Countable K} (k : K) ws
    (index : gmap K (gset WebSocket)) :
  index_mem k ws index = false →
  (∀ s, index !! k = Some s → s ≠ ∅) →
  index_discard k ws (index_add k ws index) = index.
Proof.
  intros Hout Hne. unfold index_discard. rewrite index_add_lookup.
  assert (Hs : ({[ws]} ∪ default ∅ (index !! k)) ∖ {[ws]}
               = default ∅ (index !! k)).
  { apply set_eq. intros y. rewrite elem_of_difference, elem_of_union.
    split; [set_solver|]. intros Hy. split; [by right|].
    intros ->%elem_of_singleton. revert Hout Hy. unfold index_mem.
    destruct (index !! k) as [s|] eqn:E; simpl; [|set_solver].
    rewrite bool_decide_eq_false. done. }
  rewrite Hs. apply map_eq. intros k'.
  destruct (index !! k) as [s|] eqn:E; simpl.
  - rewrite decide_False by by apply Hne.
    destruct (decide (k = k')) as [<-|Hk].
    + by rewrite lookup_insert_eq.
    + rewrite lookup_insert_ne by done. by apply index_add_lookup_ne.
  - rewrite decide_True by done.
    destruct (decide (k = k')) as [<-|Hk].
    + by rewrite lookup_delete_eq.
    + rewrite lookup_delete_ne by done. by apply index_add_lookup_ne.
Qed.

Lemma disconnect_register_id (websocket : WebSocket) (user_id : Z)
    (role : string) (m : ConnectionManager) :
  absent m websocket → no_empty_entry m →
  user_id ≠ 0 → role ≠ "" →
  disconnect websocket (register websocket user_id role m) = m.
Proof.
  intros (Hu & Hr & Hact & Hrole & Hch) [Hne1 Hne2] Hu0 Hr0.
  apply manager_eq.
  - unfold disconnect. simpl. rewrite lookup_insert_eq. simpl.
    rewrite bool_decide_eq_true_2 by done.
    apply index_discard_add; [|apply Hne1].
    destruct (index_mem user_id websocket (active_connections m)) eqn:E;
      [|done].
    exfalso. apply Hact, index_holds_mem. by exists user_id.
  - unfold disconnect. simpl. rewrite lookup_insert_eq. simpl.
    rewrite bool_decide_eq_true_2 by done.
    apply index_discard_add; [|apply Hne2].
    destruct (index_mem role websocket (role_connections m)) eqn:E; [|done].
    exfalso. apply Hrole, index_holds_mem. by exists role.
  - simpl. apply map_eq. intros ch. rewrite discard_all_lookup.
    destruct (channel_subscriptions m !! ch) as [s|] eqn:E; simpl; [|done].
    f_equal. apply set_eq. intros y. rewrite elem_of_difference.
    split; [naive_solver|]. intros Hy. split; [done|].
    intros ->%elem_of_singleton. apply Hch. by exists ch, s.
  - simpl. by apply delete_insert_id.
  - simpl. by apply delete_insert_id.
Qed.

(** X2. Registering a connection that occurs nowhere in the registry,
    under a non-zero user id and a non-empty role, and unregistering it
    again gives back the registry as it was (no key of the by-user or
    by-role index being mapped to the empty set, which no operation ever
    produces). *)
Theorem register_then_disconnect (websocket : WebSocket) (user_id : Z)
    (role : string) (m : ConnectionManager) :
  absent m websocket → no_empty_entry m →
  user_id ≠ 0 → role ≠ "" →
  disconnect websocket (register websocket user_id role m) = m.
Proof. apply disconnect_register_id. Qed.

(** ** Subscriptions *)

Lemma subscribed_after (websocket : WebSocket) (T : string)
    (m : ConnectionManager) (x : WebSocket) (T' : string) :
  subscribed (subscribe_to_channel websocket T m) x T'
  = (if decide (x = websocket ∧ T' = T) then true else subscribed m x T') ∧
  subscribed (unsubscribe_from_channel websocket T m) x T'
  = (if decide (x = websocket ∧ T' = T) then false else subscribed m x T').
Proof.
  unfold subscribed. simpl. split.
  - case_decide as Hd.
    + destruct Hd as [-> ->]. apply index_mem_add.
    + destruct (decide (x = websocket)) as [->|Hx].
      * assert (T ≠ T') by naive_solver. unfold index_mem.
        by rewrite index_add_lookup_ne.
      * by apply index_mem_add_other.
  - case_decide as Hd.
    + destruct Hd as [-> ->]. apply index_mem_discard.
    + destruct (decide (x = websocket)) as [->|Hx].
      * assert (T ≠ T') by naive_solver. unfold index_mem.
        by rewrite index_discard_lookup_ne.
      * by apply index_mem_discard_other.
Qed.

(** X3. [subscribe_to_channel] and [unsubscribe_from_channel] change the
    membership of one pair only: the given connection in the given topic
    becomes subscribed, respectively not subscribed, and every other
    connection and every other topic reads as before. *)
Theorem subscription_changes_one_pair (websocket : WebSocket) (T : string)
    (m : ConnectionManager) (x : WebSocket) (T' : string) :
  subscribed (subscribe_to_channel websocket T m) x T'
  = (if decide (x = websocket ∧ T' = T) then true else subscribed m x T') ∧
  subscribed (unsubscribe_from_channel websocket T m) x T'
  = (if decide (x = websocket ∧ T' = T) then false else subscribed m x T').
Proof. apply subscribed_after. Qed.

Lemma index_discard_absent `{Countable K} (k : K) ws
    (index : gmap K (gset WebSocket)) :
  index_mem k ws index = false →
  (∀ s, index !! k = Some s → s ≠ ∅) →
  index_discard k ws index = index.
Proof.
  intros Hout Hne. unfold index_discard.
  destruct (index !! k) as [s|] eqn:E; [|done].
  assert (Hs : s ∖ {[ws]} = s).
  { revert Hout. unfold index_mem. rewrite E, bool_decide_eq_false.
    set_solver. }
  rewrite Hs, decide_False by by apply Hne. by apply insert_id.
Qed.

(** X4. For a connection that is not subscribed to a topic, subscribing
    and then unsubscribing gives back the registry as it was, and
    unsubscribing alone changes nothing, provided the topic is not
    mapped to the empty set. *)
Theorem unsubscribe_undoes_subscribe (websocket : WebSocket) (T : string)
    (m : ConnectionManager) :
  subscribed m websocket T = false →
  channel_subscriptions m !! T ≠ Some ∅ →
  unsubscribe_from_channel websocket T (subscribe_to_channel websocket T m)
  = m ∧
  unsubscribe_from_channel websocket T m = m.
Proof.
  intros Hout Hne.
  assert (Hne' : ∀ s, channel_subscriptions m !! T = Some s → s ≠ ∅)
    by (intros s Hs ->; done).
  split; apply manager_eq; simpl; try done.
  - by apply index_discard_add.
  - by apply index_discard_absent.
Qed.

(** ** Statistics *)

Lemma index_add_nonempty `{Countable K} (k k' : K) ws
    (index : gmap K (gset WebSocket)) s :
  (∀ s, index !! k' = Some s → s ≠ ∅) →
  index_add k ws index !! k' = Some s → s ≠ ∅.
Proof.
  intros Hne. destruct (decide (k = k')) as [<-|Hk].
  - rewrite index_add_lookup. intros [= <-]. set_solver.
  - rewrite index_add_lookup_ne by done. apply Hne.
Qed.

Lemma index_discard_nonempty `{Countable K} (k k' : K) ws
    (index : gmap K (gset WebSocket)) s :
  (∀ s, index !! k' = Some s → s ≠ ∅) →
  index_discard k ws index !! k' = Some s → s ≠ ∅.
Proof.
  intros Hne. destruct (decide (k = k')) as [<-|Hk].
  - rewrite index_discard_lookup.
    destruct (index !! k) as [s0|]; simpl; [|done].
    case_decide; [done|]. by intros [= <-].
  - rewrite index_discard_lookup_ne by done. apply Hne.
Qed.

Lemma apply_op_no_empty_entry op m :
  no_empty_entry m → no_empty_entry (apply_op m op).
Proof.
  intros [Hact Hrole].
  destruct op as [ws u r | ws | ws ch | ws ch]; simpl; [| |done..].
  - split; intros k s; apply index_add_nonempty; intros s';
      [apply Hact | apply Hrole].
  - split; intros k s; simpl.
    + destruct (ws_to_user m !! ws) as [u|]; [|apply Hact]. simpl.
      case_bool_decide; [|apply Hact].
      apply index_discard_nonempty. intros s'. apply Hact.
    + destruct (ws_to_role m !! ws) as [r|]; [|apply Hrole]. simpl.
      case_bool_decide; [|apply Hrole].
      apply index_discard_nonempty. intros s'. apply Hrole.
Qed.

Lemma apply_ops_no_empty_entry ops m :
  no_empty_entry m → no_empty_entry (apply_ops m ops).
Proof.
  revert m. induction ops as [|op ops IH]; intros m Hm; [done|].
  simpl. by apply IH, apply_op_no_empty_entry.
Qed.

Lemma new_manager_no_empty_entry : no_empty_entry new_manager.
Proof. split; intros k s; simpl; by rewrite lookup_empty. Qed.

Lemma size_pos (s : gset WebSocket) : s ≠ ∅ → (0 < size s)%nat.
Proof.
  intros Hs. destruct (size s) eqn:E; [|lia].
  apply size_empty_inv in E. exfalso. apply Hs. by apply leibniz_equiv.
Qed.

Lemma length_le_sum_sizes (l : list (gset WebSocket)) :
  Forall (λ s, s ≠ ∅) l → (length l ≤ sum_list (size <$> l))%nat.
Proof.
  induction 1 as [|s l Hs _ IH]; [done|].
  assert (E : sum_list (size <$> s :: l)
              = (size s + sum_list (size <$> l))%nat) by done.
  rewrite E. pose proof (size_pos s Hs). simpl length. lia.
Qed.

(** X5. After any sequence of register, unregister, subscribe and
    unsubscribe operations on a new manager, the statistics report at
    least one connection for every role they list, and no more users
    online than connections. *)
Theorem stats_have_no_empty_role (ops : list registry_op) (r : string)
    (n : nat) :
  (Stats.connections_by_role
     (get_connection_stats (apply_ops new_manager ops)) !! r = Some n
   → (0 < n)%nat) ∧
  (Stats.users_online (get_connection_stats (apply_ops new_manager ops))
   ≤ Stats.total_connections
       (get_connection_stats (apply_ops new_manager ops)))%nat.
Proof.
  pose proof (apply_ops_no_empty_entry ops _ new_manager_no_empty_entry)
    as [Hact Hrole].
  set (m := apply_ops new_manager ops) in *. split.
  - simpl. rewrite lookup_fmap.
    destruct (role_connections m !! r) as [s|] eqn:E; simpl; [|done].
    intros [= <-]. apply Hrole in E. by apply size_pos.
  - simpl.
    rewrite <- (length_map_to_list (active_connections m)).
    rewrite <- (length_fmap snd (map_to_list (active_connections m))).
    apply length_le_sum_sizes. apply Forall_forall.
    intros s ((k & s') & -> & Hin)%list_elem_of_fmap.
    apply elem_of_map_to_list in Hin. by apply (Hact k).
Qed.

Lemma sum_sizes_disjoint (f : WebSocket → option Z)
    (l : list (Z * gset WebSocket)) :
  NoDup l.*1 →
  (∀ k s x, (k, s) ∈ l → x ∈ s → f x = Some k) →
  sum_list (size <$> l.*2) = size (⋃ l.*2).
Proof.
  induction l as [|[k s] l IH]; intros Hnd Hf.
  - symmetry. apply size_empty.
  - apply NoDup_cons in Hnd as [Hk Hnd].
    assert (E : sum_list (size <$> ((k, s) :: l).*2)
                = (size s + sum_list (size <$> l.*2))%nat) by done.
    assert (E' : ⋃ ((k, s) :: l).*2 = s ∪ ⋃ l.*2) by done.
    rewrite E, E'.
    rewrite IH; [|done|intros k' s' x Hin; apply Hf; by right].
    rewrite size_union; [done|].
    intros x Hx (s' & Hs' & Hx')%elem_of_union_list.
    apply list_elem_of_fmap in Hs' as ((k' & s'') & -> & Hin). simpl in Hx'.
    assert (f x = Some k) as E1 by (eapply Hf; [by left|done]).
    assert (f x = Some k') as E2 by (eapply Hf; [by right|done]).
    apply Hk. apply list_elem_of_fmap. exists (k', s''). split; [|done].
    simpl. congruence.
Qed.

(** X6. In a sound registry, which is what any sequence of operations
    gives that registers only unregistered connections under truthy user
    ids and roles, [total_connections] is the number of connections a
    broadcast addresses: no connection is counted twice. *)
Theorem total_connections_counts_broadcast_targets
    (ops : list registry_op) :
  well_formed new_manager ops →
  Stats.total_connections (get_connection_stats (apply_ops new_manager ops))
  = size (all_websockets (apply_ops new_manager ops)).
Proof.
  intros Hops.
  pose proof (apply_ops_sound ops _ new_manager_sound Hops) as (Hact & _).
  set (m := apply_ops new_manager ops) in *. simpl. unfold all_websockets.
  apply (sum_sizes_disjoint (λ x, ws_to_user m !! x)).
  - apply NoDup_fst_map_to_list.
  - intros k s x Hin%elem_of_map_to_list Hx. apply Hact.
    apply index_mem_true. by exists s.
Qed.

(** ** Delivery *)

Lemma failing_empty w message targets :
  (∀ x, x ∈ targets → send_text_raises (transport w) x message = false) →
  failing w message targets = ∅.
Proof.
  intros Hok. apply set_eq. intros x. rewrite elem_of_failing.
  split; [|set_solver]. intros [Hx Hr]. rewrite (Hok x Hx) in Hr. done.
Qed.

(** X7. A fan-out over an empty set of connections (an unknown user,
    role or topic, or a broadcast with nobody connected) sends nothing,
    raises nothing and leaves the world as it was. *)
Theorem deliver_to_nobody (sel : selector) (message : Message) (w : World) :
  snapshot sel (manager w) = ∅ →
  deliver message sel w = (Ok tt, w).
Proof.
  intros Hempty. rewrite deliver_spec, Hempty.
  unfold failing. rewrite elements_empty. simpl. rewrite elements_empty.
  simpl. by rewrite emits_nil, with_manager_id.
Qed.

Lemma disconnect_all_ops (l : list WebSocket) m :
  foldl (λ m y, disconnect y m) m l = apply_ops m (OpUnregister <$> l).
Proof.
  revert m. induction l as [|y l IH]; intros m; [done|]. simpl. apply IH.
Qed.

Lemma disconnect_all_unregistered (l : list WebSocket) x m :
  x ∈ l → unregistered (foldl (λ m y, disconnect y m) m l) x.
Proof.
  revert m. induction l as [|y l IH]; intros m Hx; [by apply elem_of_nil in Hx|].
  simpl. destruct (decide (x ∈ l)) as [Hin|Hout]; [by apply IH|].
  apply elem_of_cons in Hx as [->|Hx]; [|done].
  rewrite disconnect_all_ops. apply apply_ops_unregistered.
  - apply disconnect_unregistered.
  - apply Forall_fmap, Forall_forall. by intros z _ [].
Qed.

(** X8. Whatever sends fail, a fan-out returns normally and addresses
    every connection of the copied set exactly once and no other
    connection at all (no retry, no duplicate). Afterwards every
    connection whose send failed is out of both reverse mappings and of
    every topic, every other connection has all its registrations as
    before, and without a failure the registry is unchanged. The store
    is never touched. *)
Theorem deliver_once_each (sel : selector) (message : Message) (w : World) :
  outcome (deliver message sel) w = Ok tt ∧
  (∀ x, events_to x (events_of (deliver message sel) w)
        = if decide (x ∈ snapshot sel (manager w))
          then [attempt w message x] else []) ∧
  (∀ x, x ∈ snapshot sel (manager w) →
        send_text_raises (transport w) x message = true →
        unregistered (manager (after (deliver message sel) w)) x) ∧
  (∀ x, ¬ (x ∈ snapshot sel (manager w) ∧
           send_text_raises (transport w) x message = true) →
        same_entries x (manager w) (manager (after (deliver message sel) w))) ∧
  ((∀ x, x ∈ snapshot sel (manager w) →
         send_text_raises (transport w) x message = false) →
   manager (after (deliver message sel) w) = manager w) ∧
  db (after (deliver message sel) w) = db w.
Proof.
  assert (Hev : events_of (deliver message sel) w
                = attempt w message <$> elements (snapshot sel (manager w))).
  { eapply events_of_emits. unfold after. by rewrite deliver_spec. }
  rewrite Hev. unfold outcome, after. rewrite deliver_spec. simpl.
  split; [done|]. split; [|split; [|split; [|split; [|done]]]].
  - intros x. rewrite events_to_attempts by apply NoDup_elements.
    destruct (decide (x ∈ snapshot sel (manager w))).
    + by rewrite decide_True by by apply elem_of_elements.
    + by rewrite decide_False by by rewrite elem_of_elements.
  - intros x Hx Hr. apply disconnect_all_unregistered.
    apply elem_of_elements, elem_of_failing. done.
  - intros x Hx. apply disconnect_all_same_entries.
    by rewrite elem_of_elements, elem_of_failing.
  - intros Hok. rewrite (failing_empty _ _ _ Hok).
    by rewrite elements_empty.
Qed.

(** X9. [send_personal_message] never raises and makes one send. When
    the send succeeds the registry is unchanged; when it fails the
    connection is unregistered, and in either case no other connection
    loses or gains a registration. *)
Theorem send_personal_message_isolated (message : Message)
    (websocket : WebSocket) (w : World) :
  outcome (send_personal_message message websocket) w = Ok tt ∧
  events_of (send_personal_message message websocket) w
  = [attempt w message websocket] ∧
  manager (after (send_personal_message message websocket) w)
  = (if send_text_raises (transport w) websocket message
     then disconnect websocket (manager w) else manager w) ∧
  (∀ x, x ≠ websocket →
        same_entries x (manager w)
          (manager (after (send_personal_message message websocket) w))) ∧
  db (after (send_personal_message message websocket) w) = db w.
Proof.
  split; [apply send_personal_message_events|].
  split; [apply send_personal_message_events|].
  unfold after. rewrite send_personal_message_spec. simpl.
  split; [done|]. split; [|done]. intros x Hne.
  destruct (send_text_raises (transport w) websocket message).
  - by apply disconnect_same_entries.
  - apply same_entries_refl.
Qed.

(** X10. The two ways [connect] can fail. When [accept] raises, the
    exception reaches the caller and nothing has happened: no
    registration, no send. When [accept] succeeds and the confirmation
    cannot be sent, [connect] still returns normally and the
    registration is undone: for a connection that was nowhere in the
    registry, registered under a non-zero user id and a non-empty role,
    the registry is again what it was before the call. *)
Theorem connect_failures (websocket : WebSocket) (user_id : Z)
    (role : string) (w : World) :
  (accept_raises (transport w) websocket = true →
   connect websocket user_id role w = (Raise (RuntimeError "accept"), w)) ∧
  (accept_raises (transport w) websocket = false →
   send_text_raises (transport w) websocket
     (connection_status (clock w (ticks w)) user_id role) = true →
   outcome (connect websocket user_id role) w = Ok tt ∧
   manager (after (connect websocket user_id role) w)
   = disconnect websocket (register websocket user_id role (manager w)) ∧
   (absent (manager w) websocket → no_empty_entry (manager w) →
    user_id ≠ 0 → role ≠ "" →
    manager (after (connect websocket user_id role) w) = manager w)).
Proof.
  split.
  - intros Hacc. unfold connect, bind at 1, accept. by rewrite Hacc.
  - intros Hacc Hsend.
    assert (Hrun : connect websocket user_id role w
      = send_personal_message
          (connection_status (clock w (ticks w)) user_id role) websocket
          (tick (with_manager (register websocket user_id role (manager w))
                              (emit (EvAccept websocket) w)))).
    { unfold connect, bind at 1, accept. by rewrite Hacc. }
    assert (Hm : manager (after (connect websocket user_id role) w)
                 = disconnect websocket
                     (register websocket user_id role (manager w))).
    { unfold after. rewrite Hrun, send_personal_message_spec. simpl.
      by rewrite Hsend. }
    split; [|split; [done|]].
    + unfold outcome. by rewrite Hrun, send_personal_message_spec.
    + intros. rewrite Hm. by apply disconnect_register_id.
Qed.

(** ** The dispatcher, handler by handler *)

Section Handlers.
Variable py_repr : json → string.
Variable _handle_subscribe : WebSocket → Message → M unit.
Variable _handle_unsubscribe : WebSocket → Message → M unit.
Variable _handle_resolve_alert : WebSocket → Message → M unit.
Variable _send_sensor_data : WebSocket → json → M unit.
Variable _send_alerts : WebSocket → json → M unit.
Variable _send_system_stats : WebSocket → M unit.

Local Notation dispatch :=
  (handle_websocket_message py_repr _handle_subscribe _handle_unsubscribe
     _handle_resolve_alert _send_sensor_data _send_alerts
     _send_system_stats).

Lemma dispatch_ok websocket message w handler w1 :
  handler_for _handle_subscribe _handle_unsubscribe _handle_resolve_alert
    _send_sensor_data _send_alerts _send_system_stats
    (dict_get "type" message) = Some handler →
  handler websocket message w = (Ok tt, w1) →
  dispatch websocket message w = (Ok tt, w1).
Proof.
  intros Hsome Hrun. unfold handle_websocket_message, try_except.
  by rewrite Hsome, Hrun.
Qed.

(** X11. A ["ping"] message is answered with one personal ["pong"]
    that carries the clock reading taken for it; the store is not
    touched and nothing else is sent, whatever else the message holds. *)
Theorem ping_is_answered_with_pong (websocket : WebSocket)
    (message : Message) (w : World) :
  dict_get "type" message = Some (JStr "ping") →
  dispatch websocket message w
  = send_personal_message (pong (clock w (ticks w))) websocket (tick w) ∧
  events_of (dispatch websocket message) w
  = [attempt w (pong (clock w (ticks w))) websocket] ∧
  db (after (dispatch websocket message) w) = db w.
Proof.
  intros Hty.
  assert (Hrun : dispatch websocket message w
    = send_personal_message (pong (clock w (ticks w))) websocket (tick w)).
  { unfold handle_websocket_message, try_except. rewrite Hty.
    change (handler_for _ _ _ _ _ _ (Some (JStr "ping")))
      with (Some (λ (ws : WebSocket) (_ : Message), _handle_ping ws)).
    unfold _handle_ping, bind, now, pong.
    by rewrite send_personal_message_spec. }
  split; [done|]. unfold events_of, after.
  rewrite Hrun, send_personal_message_spec. simpl.
  split; [by rewrite drop_app_length | done].
Qed.

(** X12. A ["request_data"] message whose [data_type] is missing or is
    none of the four known kinds gets no answer at all: nothing is sent,
    no error is reported and the world is unchanged. *)
Theorem unknown_data_type_is_ignored (websocket : WebSocket)
    (message : Message) (w : World) :
  dict_get "type" message = Some (JStr "request_data") →
  (∀ s, s ∈ data_types → dict_get "data_type" message ≠ Some (JStr s)) →
  dispatch websocket message w = (Ok tt, w).
Proof.
  intros Hty Hkind.
  eapply dispatch_ok; [by rewrite Hty|].
  unfold _handle_data_request, eq_str.
  destruct (dict_get "data_type" message) as [[| | | |s| |]|]; try done.
  repeat (let Hc := fresh "Hc" in
          case_bool_decide as Hc;
          [exfalso; apply (Hkind s); [rewrite Hc; in_list | done]|]).
  done.
Qed.

(** X13. An ["acknowledge_alert"] message is dropped in silence, with
    no reply, no broadcast and no change, when the sender's user id is
    unknown or zero, and when no stored alert has the given id. *)
Theorem acknowledge_without_target_is_silent (websocket : WebSocket)
    (message : Message) (w : World) :
  dict_get "type" message = Some (JStr "acknowledge_alert") →
  truthy_int (ws_to_user (manager w) !! websocket) = false ∨
  (storage_fault (db w) = false ∧
   ∃ a, dict_get "alert_id" message = Some (JStr a) ∧
        list_find (λ row, alert_id row = a) (alerts (db w)) = None) →
  dispatch websocket message w = (Ok tt, w).
Proof.
  intros Hty Hcase.
  eapply dispatch_ok; [by rewrite Hty|]. by apply acknowledge_noop.
Qed.

(** X14. When the store fails, an ["acknowledge_alert"] from a known
    user changes nothing and broadcasts nothing: the sender gets the
    personal error ["Internal server error"] and that is all. *)
Theorem acknowledge_with_failing_store (websocket : WebSocket)
    (message : Message) (w : World) :
  dict_get "type" message = Some (JStr "acknowledge_alert") →
  truthy_int (ws_to_user (manager w) !! websocket) = true →
  storage_fault (db w) = true →
  dispatch websocket message w
  = send_personal_message (error_message "Internal server error")
                          websocket w ∧
  events_of (dispatch websocket message) w
  = [attempt w (error_message "Internal server error") websocket] ∧
  db (after (dispatch websocket message) w) = db w.
Proof.
  intros Hty Hu Hfault.
  assert (Hrun : dispatch websocket message w
    = send_personal_message (error_message "Internal server error")
                            websocket w).
  { eapply dispatch_raise; [by rewrite Hty|].
    unfold _handle_acknowledge_alert, bind at 1, get_manager.
    rewrite Hu. simpl. unfold bind, query_alert. by rewrite Hfault. }
  split; [done|]. unfold events_of, after.
  rewrite Hrun, send_personal_message_spec. simpl.
  split; [by rewrite drop_app_length | done].
Qed.
End Handlers.

(** ** Acknowledging twice *)

(** The world one acknowledgement leaves when no send fails. *)
Lemma acknowledge_world websocket message w user_id a i alert :
  ws_to_user (manager w) !! websocket = Some user_id →
  user_id ≠ 0 →
  dict_get "alert_id" message = Some (JStr a) →
  storage_fault (db w) = false →
  list_find (λ row, alert_id row = a) (alerts (db w)) = Some (i, alert) →
  (∀ x m, send_text_raises (transport w) x m = false) →
  _handle_acknowledge_alert websocket message w
  = (Ok tt,
     emits
       (((λ x, EvSent x (alert_acknowledged (JStr a) user_id
                                            (clock w (S (ticks w)))))
           <$> elements (all_websockets (manager w)))
        ++ [EvSent websocket (action_success "acknowledge_alert" (JStr a))])
       (tick (tick (with_db
          {| alerts :=
               <[i := acknowledged alert user_id (clock w (ticks w))
                        (dict_get_default "notes" (JStr "") message)]>
                 (alerts (db w));
             alert_actions :=
               alert_actions (db w)
               ++ [acknowledge_action alert user_id
                     (dict_get_default "notes" (JStr "") message)];
             metrics := metrics (db w);
             storage_fault := storage_fault (db w) |} w)))).
Proof.
  intros Hu Hnz Hid Hfault Hfind Hok.
  rewrite (acknowledge_runs _ _ _ _ _ _ _ Hu Hnz Hid Hfault Hfind).
  unfold bind. change (broadcast ?m) with (deliver m ToAll).
  rewrite deliver_spec. rewrite failing_empty by (intros; apply Hok).
  rewrite elements_empty. simpl foldl.
  rewrite send_personal_message_spec. simpl transport. rewrite Hok.
  f_equal. unfold emits, with_manager, tick, with_db. simpl.
  f_equal. rewrite <- app_assoc. f_equal. f_equal.
  - apply list_fmap_ext. intros _ x _. unfold attempt. simpl. by rewrite Hok.
  - unfold attempt. simpl. by rewrite Hok.
Qed.

(** X15. Acknowledging an alert a second time overwrites the first
    acknowledgement: with no failing send and a working store, after
    user [u1] and then user [u2] acknowledge the same alert, the row
    names [u2] as its acknowledger with the second time stamp and
    notes, and the action log has gained one ["acknowledge"] record per
    call, in call order. *)
Theorem acknowledge_again_overwrites (ws1 ws2 : WebSocket)
    (msg1 msg2 : Message) (w : World) (u1 u2 : Z) (a : string) (i : nat)
    (alert : Alert) :
  ws_to_user (manager w) !! ws1 = Some u1 → u1 ≠ 0 →
  ws_to_user (manager w) !! ws2 = Some u2 → u2 ≠ 0 →
  dict_get "alert_id" msg1 = Some (JStr a) →
  dict_get "alert_id" msg2 = Some (JStr a) →
  storage_fault (db w) = false →
  list_find (λ row, alert_id row = a) (alerts (db w)) = Some (i, alert) →
  (∀ x m, send_text_raises (transport w) x m = false) →
  alerts (db (after (_handle_acknowledge_alert ws2 msg2)
                    (after (_handle_acknowledge_alert ws1 msg1) w)))
  = <[i := acknowledged
             (acknowledged alert u1 (clock w (ticks w))
                (dict_get_default "notes" (JStr "") msg1))
             u2 (clock w (S (S (ticks w))))
             (dict_get_default "notes" (JStr "") msg2)]> (alerts (db w)) ∧
  alert_actions (db (after (_handle_acknowledge_alert ws2 msg2)
                           (after (_handle_acknowledge_alert ws1 msg1) w)))
  = alert_actions (db w)
    ++ [acknowledge_action alert u1 (dict_get_default "notes" (JStr "") msg1);
        acknowledge_action alert u2 (dict_get_default "notes" (JStr "") msg2)].
Proof.
  intros Hu1 Hn1 Hu2 Hn2 Hid1 Hid2 Hfault Hfind Hok.
  unfold after at 2 4.
  rewrite (acknowledge_world _ _ _ _ _ _ _ Hu1 Hn1 Hid1 Hfault Hfind Hok).
  simpl snd.
  apply list_find_Some in Hfind as Hfind'. destruct Hfind' as (Hi & Ha & Hmin).
  unfold after.
  erewrite acknowledge_world; simpl; eauto.
  - split; [by rewrite list_insert_insert_eq|]. by rewrite <- app_assoc.
  - apply list_find_insert_Some. right. left.
    split; [done|]. split; [done|].
    split; [by eapply lookup_lt_Some|]. split; [done|]. done.
Qed.

(** ** The subscription handlers *)

Lemma for_each_modify {A} (f : A → ConnectionManager → ConnectionManager)
    (l : list A) w :
  for_each l (λ x, modify_manager (f x)) w
  = (Ok tt, with_manager (foldl (λ m x, f x m) (manager w) l) w).
Proof.
  revert w. induction l as [|x l IH]; intros w.
  - simpl. unfold ret. by rewrite with_manager_id.
  - simpl. unfold bind, modify_manager. by rewrite IH.
Qed.

Lemma channel_keys_strings (cs : list string) :
  channel_keys (JStr <$> cs) = Some (cs, None).
Proof.
  induction cs as [|c cs IH]; [done|].
  rewrite fmap_cons. cbn [channel_keys]. by rewrite IH.
Qed.

Lemma channel_keys_unhashable (cs : list string) bad rest :
  unhashable bad →
  channel_keys ((JStr <$> cs) ++ bad :: rest)
  = Some (cs, Some (TypeError "unhashable type")).
Proof.
  intros Hbad. induction cs as [|c cs IH].
  - by destruct bad.
  - rewrite fmap_cons. cbn [app channel_keys]. by rewrite IH.
Qed.

Lemma subscribed_subscribe_all websocket cs m x T :
  subscribed (subscribe_all websocket cs m) x T = true
  ↔ (x = websocket ∧ T ∈ cs) ∨ subscribed m x T = true.
Proof.
  unfold subscribe_all. revert m.
  induction cs as [|c cs IH]; intros m; simpl.
  - split; [by right|]. intros [[_ []%elem_of_nil]|]; done.
  - rewrite IH, (proj1 (subscribed_after websocket c m x T)).
    rewrite elem_of_cons. case_decide; naive_solver.
Qed.

Lemma subscribed_unsubscribe_all websocket cs m x T :
  subscribed (unsubscribe_all websocket cs m) x T = true
  ↔ subscribed m x T = true ∧ ¬ (x = websocket ∧ T ∈ cs).
Proof.
  unfold unsubscribe_all. revert m.
  induction cs as [|c cs IH]; intros m; simpl.
  - split; [|naive_solver]. intros Hs. split; [done|].
    by intros [_ []%elem_of_nil].
  - rewrite IH, (proj2 (subscribed_after websocket c m x T)).
    rewrite elem_of_cons. case_decide; naive_solver.
Qed.

Lemma walk_channels_ok change confirmation websocket cs w :
  walk_channels change confirmation websocket (cs, None) w
  = send_personal_message (confirmation (clock w (ticks w))) websocket
      (tick (with_manager (foldl (λ m c, change c m) (manager w) cs) w)).
Proof.
  unfold walk_channels. simpl.
  rewrite (bind_run _ _ _ _ _ (for_each_modify change cs w)).
  by unfold bind, now.
Qed.

Lemma walk_channels_raise change confirmation websocket cs e w :
  walk_channels change confirmation websocket (cs, Some e) w
  = (Raise e, with_manager (foldl (λ m c, change c m) (manager w) cs) w).
Proof.
  unfold walk_channels. simpl.
  by rewrite (bind_run _ _ _ _ _ (for_each_modify change cs w)).
Qed.

(** X16. For a ["subscribe"] payload whose [channels] entry is a list of
    strings, or is missing, the handler subscribes the sender to each
    listed topic and sends one ["subscription_confirmed"] that echoes
    the list. When that send succeeds, the sender is subscribed to every
    listed topic and no other subscription has changed; when it fails,
    the sender is unregistered. *)
Theorem handle_subscribe_strings (websocket : WebSocket) (message : Message)
    (w : World) (cs : list string) :
  dict_get_default "channels" (JList []) message = JList (JStr <$> cs) →
  _handle_subscribe websocket message
  = Some (walk_channels (subscribe_to_channel websocket)
            (subscription_confirmed (JList (JStr <$> cs))) websocket
            (cs, None)) ∧
  outcome (walk_channels (subscribe_to_channel websocket)
             (subscription_confirmed (JList (JStr <$> cs))) websocket
             (cs, None)) w = Ok tt ∧
  events_of (walk_channels (subscribe_to_channel websocket)
               (subscription_confirmed (JList (JStr <$> cs))) websocket
               (cs, None)) w
  = [attempt w (subscription_confirmed (JList (JStr <$> cs))
                  (clock w (ticks w))) websocket] ∧
  manager (after (walk_channels (subscribe_to_channel websocket)
                    (subscription_confirmed (JList (JStr <$> cs))) websocket
                    (cs, None)) w)
  = (if send_text_raises (transport w) websocket
          (subscription_confirmed (JList (JStr <$> cs)) (clock w (ticks w)))
     then disconnect websocket (subscribe_all websocket cs (manager w))
     else subscribe_all websocket cs (manager w)) ∧
  (∀ x T, subscribed (subscribe_all websocket cs (manager w)) x T = true
          ↔ (x = websocket ∧ T ∈ cs) ∨ subscribed (manager w) x T = true).
Proof.
  intros Hch.
  split; [|split; [|split; [|split]]].
  - unfold _handle_subscribe, iterate. rewrite Hch.
    by rewrite channel_keys_strings.
  - unfold outcome.
    by rewrite walk_channels_ok, send_personal_message_spec.
  - unfold events_of, after.
    rewrite walk_channels_ok, send_personal_message_spec. simpl.
    by rewrite drop_app_length.
  - unfold after. by rewrite walk_channels_ok, send_personal_message_spec.
  - intros x T. apply subscribed_subscribe_all.
Qed.

(** X17. For an ["unsubscribe"] payload whose [channels] entry is a list
    of strings, or is missing, the handler unsubscribes the sender from
    each listed topic and sends one ["unsubscription_confirmed"] that
    echoes the list. When that send succeeds, the sender is subscribed
    to none of the listed topics and every other subscription is as
    before; when it fails, the sender is unregistered. *)
Theorem handle_unsubscribe_strings (websocket : WebSocket)
    (message : Message) (w : World) (cs : list string) :
  dict_get_default "channels" (JList []) message = JList (JStr <$> cs) →
  _handle_unsubscribe websocket message
  = Some (walk_channels (unsubscribe_from_channel websocket)
            (unsubscription_confirmed (JList (JStr <$> cs))) websocket
            (cs, None)) ∧
  outcome (walk_channels (unsubscribe_from_channel websocket)
             (unsubscription_confirmed (JList (JStr <$> cs))) websocket
             (cs, None)) w = Ok tt ∧
  events_of (walk_channels (unsubscribe_from_channel websocket)
               (unsubscription_confirmed (JList (JStr <$> cs))) websocket
               (cs, None)) w
  = [attempt w (unsubscription_confirmed (JList (JStr <$> cs))
                  (clock w (ticks w))) websocket] ∧
  manager (after (walk_channels (unsubscribe_from_channel websocket)
                    (unsubscription_confirmed (JList (JStr <$> cs)))
                    websocket (cs, None)) w)
  = (if send_text_raises (transport w) websocket
          (unsubscription_confirmed (JList (JStr <$> cs))
             (clock w (ticks w)))
     then disconnect websocket (unsubscribe_all websocket cs (manager w))
     else unsubscribe_all websocket cs (manager w)) ∧
  (∀ x T, subscribed (unsubscribe_all websocket cs (manager w)) x T = true
          ↔ subscribed (manager w) x T = true ∧ ¬ (x = websocket ∧ T ∈ cs)).
Proof.
  intros Hch.
  split; [|split; [|split; [|split]]].
  - unfold _handle_unsubscribe, iterate. rewrite Hch.
    by rewrite channel_keys_strings.
  - unfold outcome.
    by rewrite walk_channels_ok, send_personal_message_spec.
  - unfold events_of, after.
    rewrite walk_channels_ok, send_personal_message_spec. simpl.
    by rewrite drop_app_length.
  - unfold after. by rewrite walk_channels_ok, send_personal_message_spec.
  - intros x T. apply subscribed_unsubscribe_all.
Qed.

(** X18. Subscription is not atomic. When the [channels] list holds
    strings and then a list or a dict, the handler raises [TypeError] at
    that element: nothing is sent, no confirmation in particular, and
    the subscriptions made for the strings before it stay. When
    [channels] is a number, a boolean or null, the handler raises
    [TypeError] before it changes anything. *)
Theorem handle_subscribe_stops_midway (websocket : WebSocket)
    (message : Message) (w : World) :
  (∀ cs bad rest,
     dict_get_default "channels" (JList []) message
     = JList ((JStr <$> cs) ++ bad :: rest) →
     unhashable bad →
     ∃ run, _handle_subscribe websocket message = Some run ∧
            run w = (Raise (TypeError "unhashable type"),
                     with_manager (subscribe_all websocket cs (manager w)) w)) ∧
  (not_iterable (dict_get_default "channels" (JList []) message) →
   ∃ run, _handle_subscribe websocket message = Some run ∧
          run w = (Raise (TypeError "object is not iterable"), w)).
Proof.
  split.
  - intros cs bad rest Hch Hbad. eexists. split.
    + unfold _handle_subscribe, iterate. rewrite Hch.
      rewrite (channel_keys_unhashable cs bad rest Hbad). reflexivity.
    + by rewrite walk_channels_raise.
  - intros Hni. eexists. split.
    + unfold _handle_subscribe, iterate.
      destruct (dict_get_default "channels" (JList []) message);
        try (exfalso; exact Hni); reflexivity.
    + rewrite walk_channels_raise. simpl. by rewrite with_manager_id.
Qed.

(** X19. Subscribing a connection to a list of topics and then
    unsubscribing it from the same list leaves it subscribed to none of
    them, whether or not it was subscribed before, and changes no other
    subscription. *)
Theorem unsubscribe_all_after_subscribe_all (websocket : WebSocket)
    (cs : list string) (m : ConnectionManager) (x : WebSocket) (T : string) :
  subscribed (unsubscribe_all websocket cs (subscribe_all websocket cs m)) x T
  = true
  ↔ subscribed m x T = true ∧ ¬ (x = websocket ∧ T ∈ cs).
Proof.
  rewrite subscribed_unsubscribe_all, subscribed_subscribe_all. naive_solver.
Qed.

(** ** The other publishers *)

(** Two fan-outs of one message in a row: the second copies its set from
    the registry the first leaves, in which every connection whose send
    does not fail has its registrations as before. *)
Lemma deliver_twice message sel1 sel2 w :
  ∃ m1 m2,
    (∀ x, send_text_raises (transport w) x message = false
          → same_entries x (manager w) m1) ∧
    (deliver message sel1 ;; deliver message sel2) w
    = (Ok tt,
       with_manager m2
         (emits
            ((attempt w message <$> elements (snapshot sel1 (manager w)))
             ++ (attempt w message <$> elements (snapshot sel2 m1)))
            w)).
Proof.
  exists (foldl (λ m x, disconnect x m) (manager w)
            (elements (failing w message (snapshot sel1 (manager w))))).
  eexists. split.
  - intros x Hx. apply disconnect_all_same_entries.
    rewrite elem_of_elements, elem_of_failing. intros [_ Hr]. congruence.
  - unfold bind. rewrite deliver_spec, deliver_spec. simpl manager.
    f_equal. unfold emits, with_manager. simpl. by rewrite <- app_assoc.
Qed.

(** X20. A new alert goes to every connection of the by-user index, and
    once more to the connections of the role its category selects:
    ["traffic"], ["environment"] and ["utility"] select
    ["traffic_control"], ["environment_officer"] and ["utility_officer"],
    any other category none. So a connection of the selected role whose
    sends succeed is sent the same [new_alert] event twice, and every
    other connection once. *)
Theorem new_alert_routing (alert : Alert) (details : Details.t) (w : World)
    (c : WebSocket) :
  send_text_raises (transport w) c
    (new_alert alert details (clock w (ticks w))) = false →
  outcome (broadcast_new_alert alert details) w = Ok tt ∧
  events_to c (events_of (broadcast_new_alert alert details) w)
  = (if decide (c ∈ all_websockets (manager w))
     then [EvSent c (new_alert alert details (clock w (ticks w)))] else [])
    ++ match category_role (Details.category details) with
       | Some role =>
           if index_mem role c (role_connections (manager w))
           then [EvSent c (new_alert alert details (clock w (ticks w)))]
           else []
       | None => []
       end.
Proof.
  intros Hok.
  set (data := new_alert alert details (clock w (ticks w))) in *.
  assert (Hatt : attempt w data c = EvSent c data)
    by (unfold attempt; by rewrite Hok).
  assert (Hfirst : events_to c
            (attempt w data <$> elements (all_websockets (manager w)))
          = if decide (c ∈ all_websockets (manager w))
            then [EvSent c data] else []).
  { rewrite events_to_attempts by apply NoDup_elements. rewrite Hatt.
    destruct (decide (c ∈ all_websockets (manager w))).
    - by rewrite decide_True by by apply elem_of_elements.
    - by rewrite decide_False by by rewrite elem_of_elements. }
  assert (Hrole : ∀ role,
    outcome (broadcast_new_alert alert details) w = Ok tt ∧
    (category_role (Details.category details) = Some role →
     events_to c (events_of (broadcast_new_alert alert details) w)
     = (if decide (c ∈ all_websockets (manager w))
        then [EvSent c data] else [])
       ++ (if index_mem role c (role_connections (manager w))
           then [EvSent c data] else []))).
  { intros role.
    destruct (deliver_twice data ToAll (ToRole role) (tick w))
      as (m1 & m2 & Hframe & Hrun).
    assert (Hsel : category_role (Details.category details) = Some role →
      broadcast_new_alert alert details w
      = (deliver data ToAll ;; deliver data (ToRole role)) (tick w)).
    { intros Hcat. unfold broadcast_new_alert, bind at 1, now.
      fold data. change (broadcast data) with (deliver data ToAll).
      unfold category_role in Hcat.
      repeat case_bool_decide; by simplify_eq. }
    split.
    - unfold outcome, broadcast_new_alert, bind at 1, now. fold data.
      change (broadcast data) with (deliver data ToAll).
      unfold bind at 1. rewrite deliver_spec.
      repeat case_bool_decide;
        first [ change (send_to_role data ?r) with (deliver data (ToRole r));
                by rewrite deliver_spec
              | done ].
    - intros Hcat. unfold events_of, after. rewrite (Hsel Hcat), Hrun.
      simpl wire. rewrite drop_app_length.
      change (attempt (tick w) data) with (attempt w data).
      change (snapshot ToAll (manager (tick w)))
        with (all_websockets (manager w)).
      rewrite events_to_app, Hfirst. f_equal.
      rewrite events_to_attempts by apply NoDup_elements. rewrite Hatt.
      destruct (Hframe c Hok) as (_ & _ & _ & Hr & _).
      rewrite <- (Hr role : index_mem role c (role_connections m1)
                            = index_mem role c (role_connections (manager w))).
      destruct (index_mem role c (role_connections m1)) eqn:E.
      + rewrite decide_True; [done|].
        by apply elem_of_elements, role_snapshot.
      + rewrite decide_False; [done|].
        intros Hin%elem_of_elements. apply role_snapshot in Hin.
        congruence. }
  destruct (category_role (Details.category details)) as [role|] eqn:Hcat.
  - destruct (Hrole role) as [H1 H2]. split; [done|]. by apply H2.
  - split; [apply (Hrole "")|].
    assert (Hrun : broadcast_new_alert alert details w
                   = deliver data ToAll (tick w)).
    { unfold broadcast_new_alert, bind at 1, now. fold data.
      change (broadcast data) with (deliver data ToAll).
      unfold bind. rewrite deliver_spec.
      unfold category_role in Hcat.
      repeat case_bool_decide; by simplify_eq. }
    unfold events_of, after. rewrite Hrun, deliver_spec. simpl.
    by rewrite drop_app_length, app_nil_r.
Qed.

(** X21. The health broadcast never reads the store or the registry
    beyond the by-user index: it sends every connection of that index
    one [system_health] event whose figures are fixed (status
    ["healthy"], 45 of 50 sensors, 12 alerts), so what is sent is the
    same whatever the store holds. *)
Theorem system_health_is_fixed (w : World) (d : Session) :
  events_of broadcast_system_health w
  = attempt w (health_data (clock w (ticks w)))
      <$> elements (all_websockets (manager w)) ∧
  events_of broadcast_system_health (with_db d w)
  = events_of broadcast_system_health w ∧
  db (after broadcast_system_health w) = db w.
Proof.
  assert (Hrun : ∀ w0, broadcast_system_health w0
                       = deliver (health_data (clock w0 (ticks w0))) ToAll
                                 (tick w0)) by done.
  assert (Hev : ∀ w0, events_of broadcast_system_health w0
    = attempt w0 (health_data (clock w0 (ticks w0)))
        <$> elements (all_websockets (manager w0))).
  { intros w0. unfold events_of, after. rewrite Hrun, deliver_spec. simpl.
    by rewrite drop_app_length. }
  split; [apply Hev|]. split; [by rewrite !Hev|].
  unfold after. by rewrite Hrun, deliver_spec.
Qed.

(** ** Bucketing (lines 476-500) *)

Lemma group_by_hour_snoc rows row :
  group_by_hour (rows ++ [row])
  = bucket_append (strftime_hour (ts row)) (value row) (group_by_hour rows).
Proof. unfold group_by_hour. by rewrite foldl_app. Qed.

Lemma bucket_get_append k k' v time_series :
  bucket_get k' (bucket_append k v time_series)
  = if decide (k = k')
    then Some (default [] (bucket_get k time_series) ++ [v])
    else bucket_get k' time_series.
Proof.
  induction time_series as [|[k0 vs] rest IH]; simpl.
  - by repeat case_decide.
  - destruct (decide (k0 = k)) as [->|Hk0]; simpl.
    + repeat case_decide; congruence.
    + rewrite IH. repeat case_decide; congruence.
Qed.

Lemma bucket_append_keys k v time_series :
  (bucket_append k v time_series).*1
  = if decide (k ∈ time_series.*1) then time_series.*1
    else time_series.*1 ++ [k].
Proof.
  induction time_series as [|[k0 vs] rest IH].
  - simpl. destruct (decide (k ∈ [])) as [Hin|]; [|done].
    by apply elem_of_nil in Hin.
  - cbn [bucket_append]. rewrite !fmap_cons. cbn [fst].
    destruct (decide (k0 = k)) as [->|Hk0].
    + rewrite fmap_cons. cbn [fst].
      rewrite decide_True; [done|]. by left.
    + rewrite fmap_cons. cbn [fst]. rewrite IH.
      destruct (decide (k ∈ rest.*1)) as [Hin|Hout].
      * rewrite decide_True; [done|]. by right.
      * rewrite decide_False; [done|].
        intros [->|?]%elem_of_cons; done.
Qed.

Lemma bucket_append_NoDup k v time_series :
  NoDup time_series.*1 → NoDup (bucket_append k v time_series).*1.
Proof.
  intros Hnd. rewrite bucket_append_keys. case_decide; [done|].
  apply NoDup_app. split; [done|]. split; [|apply NoDup_singleton].
  intros x Hx ->%list_elem_of_singleton. done.
Qed.

Lemma bucket_get_elem k vs time_series :
  NoDup time_series.*1 →
  (k, vs) ∈ time_series ↔ bucket_get k time_series = Some vs.
Proof.
  induction time_series as [|[k0 vs0] rest IH]; simpl; intros Hnd.
  - split; [by intros ?%elem_of_nil | done].
  - apply NoDup_cons in Hnd as [Hk0 Hnd]. rewrite elem_of_cons, (IH Hnd).
    case_decide as Hd.
    + subst k0. split.
      * intros [[= ->]|Hg]; [done|]. exfalso. apply Hk0.
        apply (IH Hnd) in Hg. apply list_elem_of_fmap. by exists (k, vs).
      * intros [= ->]. by left.
    + split; [|by right]. intros [[= -> ->]|Hg]; done.
Qed.

(** The dict the grouping loop builds: distinct keys, and under each key
    the values of the readings of that hour, in the order of the rows. *)
Lemma group_by_hour_spec rows :
  NoDup (group_by_hour rows).*1 ∧
  ∀ k, bucket_get k (group_by_hour rows)
       = match values_of_hour k rows with
         | [] => None
         | vs => Some vs
         end.
Proof.
  induction rows as [|row rows [IHnd IH]] using rev_ind.
  - split; [apply NoDup_nil_2 | done].
  - rewrite group_by_hour_snoc. split; [by apply bucket_append_NoDup|].
    intros k. rewrite bucket_get_append. unfold values_of_hour.
    rewrite filter_app, fmap_app, filter_cons, filter_nil.
    destruct (decide (strftime_hour (ts row) = k)) as [Hk|Hk].
    + rewrite Hk, IH. unfold values_of_hour. simpl.
      by destruct (value <$> filter _ rows).
    + rewrite IH. unfold values_of_hour. simpl. by rewrite app_nil_r.
Qed.

Lemma time_series_of_elem rows b :
  b ∈ time_series_of rows
  ↔ values_of_hour (timestamp b) rows ≠ [] ∧
    b = bucket_of (timestamp b, values_of_hour (timestamp b) rows).
Proof.
  destruct (group_by_hour_spec rows) as [Hnd Hget].
  unfold time_series_of. rewrite merge_sort_Permutation, list_elem_of_fmap.
  split.
  - intros ([k vs] & -> & Hin). apply (bucket_get_elem _ _ _ Hnd) in Hin.
    rewrite Hget in Hin. simpl.
    destruct (values_of_hour k rows) as [|v vs'] eqn:E; [done|].
    by simplify_eq.
  - intros [Hne Hb]. exists (timestamp b, values_of_hour (timestamp b) rows).
    split; [done|]. apply (bucket_get_elem _ _ _ Hnd). rewrite Hget.
    by destruct (values_of_hour (timestamp b) rows).
Qed.

(** X22. The bucketing puts every reading into exactly one bucket, the
    one keyed by its timestamp truncated to the hour: every reading's
    hour has a bucket; a bucket exists only for an hour that has
    readings; and each bucket's average, minimum, maximum and count are
    computed from the values of exactly the readings of its hour, so the
    count is their number and is at least one. *)
Theorem every_reading_in_its_hour (rows : list Metric) :
  (∀ row, row ∈ rows →
          ∃ b, b ∈ time_series_of rows ∧
               timestamp b = strftime_hour (ts row)) ∧
  (∀ b, b ∈ time_series_of rows →
        b = bucket_of (timestamp b, values_of_hour (timestamp b) rows) ∧
        count b
        = Z.of_nat (length (filter (λ row, strftime_hour (ts row)
                                           = timestamp b) rows)) ∧
        0 < count b).
Proof.
  split.
  - intros row Hrow.
    exists (bucket_of (strftime_hour (ts row),
                       values_of_hour (strftime_hour (ts row)) rows)).
    split; [|done]. apply time_series_of_elem. simpl. split; [|done].
    unfold values_of_hour. intros Hnil%fmap_nil_inv.
    assert (row ∈ filter (λ r, strftime_hour (ts r) = strftime_hour (ts row))
                         rows) as Hin by by apply list_elem_of_filter.
    rewrite Hnil in Hin. by apply elem_of_nil in Hin.
  - intros b [Hne Hb]%time_series_of_elem. split; [done|].
    assert (Hc : count b
                 = Z.of_nat (length (values_of_hour (timestamp b) rows)))
      by (by rewrite Hb at 1).
    split.
    + rewrite Hc. unfold values_of_hour. by rewrite length_fmap.
    + rewrite Hc. destruct (values_of_hour (timestamp b) rows); [done|].
      simpl. lia.
Qed.

#[local] Instance by_timestamp_total : Total by_timestamp.
Proof. intros a b. apply String.leb_total. Qed.

(** X23. The time series is sorted ascending by bucket key and no two
    buckets share a key. *)
Theorem time_series_is_sorted (rows : list Metric) :
  Sorted by_timestamp (time_series_of rows) ∧
  NoDup (timestamp <$> time_series_of rows).
Proof.
  split; [apply Sorted_merge_sort, _|].
  destruct (group_by_hour_spec rows) as [Hnd _].
  unfold time_series_of. rewrite merge_sort_Permutation.
  rewrite <- list_fmap_compose.
  assert (E : (timestamp ∘ bucket_of <$> group_by_hour rows)
              = (group_by_hour rows).*1).
  { apply list_fmap_ext. by intros _ [k vs] _. }
  by rewrite E.
Qed.













(** ** Demo seeding *)

Lemma seed_insert_roles (l : list string) (t : Seed.Tables) :
  Seed.Role.name <$> Seed.roles (foldl Seed.insert_role t l)
  = (Seed.Role.name <$> Seed.roles t) ++ l ∧
  Seed.roles t `prefix_of` Seed.roles (foldl Seed.insert_role t l) ∧
  Seed.sensors (foldl Seed.insert_role t l) = Seed.sensors t ∧
  Seed.sensors_seq (foldl Seed.insert_role t l) = Seed.sensors_seq t ∧
  Seed.users (foldl Seed.insert_role t l) = Seed.users t ∧
  Seed.users_seq (foldl Seed.insert_role t l) = Seed.users_seq t.
Proof.
  revert t. induction l as [|n l IH]; intros t.
  - simpl. by rewrite app_nil_r.
  - simpl. destruct (IH (Seed.insert_role t n)) as (E & Hp & ? & ? & ? & ?).
    split; [|split; [|done]].
    + rewrite E. simpl. rewrite fmap_app. simpl. by rewrite <- app_assoc.
    + etrans; [|exact Hp]. simpl. by apply prefix_app_r.
Qed.

Lemma seed_first_role_None (n : string) (t : Seed.Tables) :
  Seed.first_role n t = None ↔ n ∉ Seed.Role.name <$> Seed.roles t.
Proof.
  unfold Seed.first_role. rewrite fmap_None, list_find_None, Forall_forall.
  rewrite list_elem_of_fmap. naive_solver.
Qed.

Lemma seed_added_is_filter (t : Seed.Tables) (l : list string) :
  foldl (λ added r,
           match Seed.first_role r t with
           | Some _ => added
           | None => added ++ [r]
           end) [] l
  = filter (λ r, r ∉ Seed.Role.name <$> Seed.roles t) l.
Proof.
  induction l as [|r l IH] using rev_ind; [done|].
  rewrite foldl_app, filter_app, IH. simpl. rewrite filter_cons, filter_nil.
  destruct (Seed.first_role r t) eqn:E.
  - rewrite decide_False; [by rewrite app_nil_r|].
    intros Hn%seed_first_role_None. congruence.
  - rewrite decide_True; [done|]. by apply seed_first_role_None.
Qed.

Lemma seed_roles_names (t : Seed.Tables) :
  Seed.Role.name <$> Seed.roles (Seed.seed_roles t)
  = (Seed.Role.name <$> Seed.roles t)
    ++ filter (λ r, r ∉ Seed.Role.name <$> Seed.roles t) Seed.default_roles.
Proof.
  unfold Seed.seed_roles. rewrite seed_added_is_filter.
  apply seed_insert_roles.
Qed.

Lemma seed_roles_complete (t : Seed.Tables) (r : string) :
  r ∈ Seed.default_roles →
  r ∈ Seed.Role.name <$> Seed.roles (Seed.seed_roles t).
Proof.
  intros Hr. rewrite seed_roles_names, elem_of_app, list_elem_of_filter.
  destruct (decide (r ∈ Seed.Role.name <$> Seed.roles t)); naive_solver.
Qed.

Lemma filter_none {A} (P : A → Prop) `{∀ x, Decision (P x)} (l : list A) :
  (∀ x, x ∈ l → ¬ P x) → filter P l = [].
Proof.
  induction l as [|x l IH]; intros Hl; [done|].
  rewrite filter_cons, decide_False by (apply Hl; by left).
  apply IH. intros y Hy. apply Hl. by right.
Qed.

Lemma seed_roles_id (t : Seed.Tables) :
  (∀ r, r ∈ Seed.default_roles → r ∈ Seed.Role.name <$> Seed.roles t) →
  Seed.seed_roles t = t.
Proof.
  intros Hall. unfold Seed.seed_roles. rewrite seed_added_is_filter.
  rewrite filter_none; [done|]. intros r Hr Hn. by apply Hn, Hall.
Qed.

Lemma seed_insert_sensors (l : list (string * string * Q * Q))
    (t : Seed.Tables) :
  Seed.roles (foldl Seed.insert_sensor t l) = Seed.roles t ∧
  Seed.roles_seq (foldl Seed.insert_sensor t l) = Seed.roles_seq t ∧
  Seed.users (foldl Seed.insert_sensor t l) = Seed.users t ∧
  Seed.users_seq (foldl Seed.insert_sensor t l) = Seed.users_seq t ∧
  Seed.sensors t `prefix_of` Seed.sensors (foldl Seed.insert_sensor t l) ∧
  length (Seed.sensors (foldl Seed.insert_sensor t l))
  = (length (Seed.sensors t) + length l)%nat.
Proof.
  revert t. induction l as [|[[[n ty] lat] lng] l IH]; intros t.
  - simpl. repeat split; [done|lia].
  - cbn [foldl]. destruct (IH (Seed.insert_sensor t (n, ty, lat, lng)))
      as (? & ? & ? & ? & Hp & Hlen).
    repeat split; try done.
    + etrans; [|exact Hp]. simpl. by apply prefix_app_r.
    + rewrite Hlen. simpl. rewrite length_app. simpl. lia.
Qed.

Lemma seed_sensors_spec (t : Seed.Tables) :
  Seed.roles (Seed.seed_sensors t) = Seed.roles t ∧
  Seed.roles_seq (Seed.seed_sensors t) = Seed.roles_seq t ∧
  Seed.users (Seed.seed_sensors t) = Seed.users t ∧
  Seed.users_seq (Seed.seed_sensors t) = Seed.users_seq t ∧
  Seed.sensors t `prefix_of` Seed.sensors (Seed.seed_sensors t) ∧
  length (Seed.sensors (Seed.seed_sensors t)) ≠ 0%nat ∧
  (length (Seed.sensors t) ≠ 0%nat → Seed.seed_sensors t = t).
Proof.
  unfold Seed.seed_sensors. case_decide as Hlen.
  - destruct (seed_insert_sensors Seed.demo_sensors t)
      as (? & ? & ? & ? & ? & Hl).
    repeat split; try done. rewrite Hl. simpl. lia.
  - done.
Qed.

Lemma seed_first_user_Some (e : string) (t : Seed.Tables) :
  is_Some (Seed.first_user e t) ↔ e ∈ Seed.User.email <$> Seed.users t.
Proof.
  unfold Seed.first_user. rewrite fmap_is_Some, list_elem_of_fmap. split.
  - intros [[i u] Hf]. apply list_find_Some in Hf as (Hi & He & _).
    exists u. split; [done|]. by eapply list_elem_of_lookup_2.
  - intros (u & -> & Hu). by eapply list_find_elem_of.
Qed.

Lemma seed_admin_spec h (t : Seed.Tables) :
  Seed.roles (Seed.seed_admin h t) = Seed.roles t ∧
  Seed.roles_seq (Seed.seed_admin h t) = Seed.roles_seq t ∧
  Seed.sensors (Seed.seed_admin h t) = Seed.sensors t ∧
  Seed.sensors_seq (Seed.seed_admin h t) = Seed.sensors_seq t ∧
  Seed.users t `prefix_of` Seed.users (Seed.seed_admin h t) ∧
  is_Some (Seed.first_user Seed.admin_email (Seed.seed_admin h t)) ∧
  (is_Some (Seed.first_user Seed.admin_email t) → Seed.seed_admin h t = t).
Proof.
  unfold Seed.seed_admin.
  destruct (Seed.first_user Seed.admin_email t) as [u|] eqn:E.
  - by split_and!.
  - split_and!; try done.
    + simpl. by apply prefix_app_r.
    + apply seed_first_user_Some. simpl. rewrite fmap_app.
      apply elem_of_app. right. simpl. by left.
Qed.

Lemma seed_tables_eq (t t' : Seed.Tables) :
  Seed.roles t = Seed.roles t' → Seed.roles_seq t = Seed.roles_seq t' →
  Seed.sensors t = Seed.sensors t' →
  Seed.sensors_seq t = Seed.sensors_seq t' →
  Seed.users t = Seed.users t' → Seed.users_seq t = Seed.users_seq t' →
  t = t'.
Proof. destruct t, t'; simpl; intros; by subst. Qed.

(** X25. Seeding is idempotent: running the seeding function a second
    time changes no table and no sequence, whatever the tables held
    before the first run; with seeding disabled it changes nothing at
    all. *)
Theorem seed_is_idempotent (allow : bool) (h : string → string)
    (t : Seed.Tables) :
  Seed.seed_demo_user_if_enabled allow h
    (Seed.seed_demo_user_if_enabled allow h t)
  = Seed.seed_demo_user_if_enabled allow h t ∧
  Seed.seed_demo_user_if_enabled false h t = t.
Proof.
  split; [|done]. destruct allow; [|done]. simpl.
  set (t1 := Seed.seed_roles t). set (t2 := Seed.seed_sensors t1).
  set (t3 := Seed.seed_admin h t2).
  destruct (seed_sensors_spec t1) as (Er2 & _ & _ & _ & _ & Hs2 & _).
  destruct (seed_admin_spec h t2) as (Er3 & _ & Es3 & _ & _ & Hu3 & _).
  fold t2 in Er2, Hs2. fold t3 in Er3, Es3, Hu3.
  assert (E1 : Seed.seed_roles t3 = t3).
  { apply seed_roles_id. intros r Hr. rewrite Er3, Er2.
    by apply seed_roles_complete. }
  rewrite E1.
  assert (E2 : Seed.seed_sensors t3 = t3).
  { apply seed_sensors_spec. by rewrite Es3. }
  rewrite E2. by apply seed_admin_spec.
Qed.

(** X26. Seeding only adds rows: what the three tables held stays, in
    place and unchanged, at the head of each table. Afterwards every one
    of the five default roles is present; role names that were distinct
    are still distinct; and a sensors table that was not empty is left
    as it was. *)
Theorem seed_only_adds (h : string → string) (t : Seed.Tables) :
  Seed.roles t `prefix_of` Seed.roles (Seed.seed_demo_user_if_enabled true h t) ∧
  Seed.sensors t
    `prefix_of` Seed.sensors (Seed.seed_demo_user_if_enabled true h t) ∧
  Seed.users t `prefix_of` Seed.users (Seed.seed_demo_user_if_enabled true h t) ∧
  (∀ r, r ∈ Seed.default_roles →
        r ∈ Seed.Role.name
              <$> Seed.roles (Seed.seed_demo_user_if_enabled true h t)) ∧
  (NoDup (Seed.Role.name <$> Seed.roles t) →
   NoDup (Seed.Role.name
            <$> Seed.roles (Seed.seed_demo_user_if_enabled true h t))) ∧
  (Seed.sensors t ≠ [] →
   Seed.sensors (Seed.seed_demo_user_if_enabled true h t) = Seed.sensors t).
Proof.
  simpl.
  set (t1 := Seed.seed_roles t). set (t2 := Seed.seed_sensors t1).
  destruct (seed_sensors_spec t1) as (Er2 & _ & Eu2 & _ & Hp2 & _ & Hid2).
  destruct (seed_admin_spec h t2) as (Er3 & _ & Es3 & _ & Hp3 & _ & _).
  fold t2 in Er2, Eu2, Hp2, Hid2, Er3, Es3, Hp3.
  destruct (seed_insert_roles
              (filter (λ r, r ∉ Seed.Role.name <$> Seed.roles t)
                      Seed.default_roles) t)
    as (_ & Hp1 & Es1 & _ & Eu1 & _).
  assert (Et1 : t1 = foldl Seed.insert_role t
                  (filter (λ r, r ∉ Seed.Role.name <$> Seed.roles t)
                          Seed.default_roles)).
  { unfold t1, Seed.seed_roles. by rewrite seed_added_is_filter. }
  rewrite <- Et1 in Hp1, Es1, Eu1.
  rewrite Er3, Er2, Es3.
  split; [done|]. split; [by rewrite <- Es1|].
  split; [by rewrite <- Eu1, <- Eu2|].
  split; [apply seed_roles_complete|]. split.
  - intros Hnd. unfold t1. rewrite seed_roles_names.
    apply NoDup_app. split; [done|]. split.
    + intros x Hx [Hout _]%list_elem_of_filter. done.
    + apply NoDup_filter. unfold Seed.default_roles.
      repeat (apply NoDup_cons; split;
              [intros Hin;
               repeat (apply elem_of_cons in Hin as [Hin|Hin];
                       [discriminate Hin|]);
               by apply elem_of_nil in Hin|]).
      apply NoDup_nil_2.
  - intros Hne. rewrite Hid2; [done|]. rewrite Es1.
    by destruct (Seed.sensors t).
Qed.

(** X27. When no user has the admin email, seeding creates exactly one
    user: the admin, with the hash of the demo password and the id of
    the first stored role named ["admin"], a role that always exists at
    that point, so the admin never ends up without a role. *)
Theorem seed_admin_gets_admin_role (h : string → string) (t : Seed.Tables) :
  Seed.first_user Seed.admin_email t = None →
  ∃ r u, Seed.first_role "admin" (Seed.seed_demo_user_if_enabled true h t)
         = Some r ∧
         Seed.users (Seed.seed_demo_user_if_enabled true h t)
         = Seed.users t ++ [u] ∧
         Seed.User.email u = Seed.admin_email ∧
         Seed.User.password_hash u = h "admin123" ∧
         Seed.User.role_id u = Some (Seed.Role.id r).
Proof.
  intros Hnone. simpl.
  set (t1 := Seed.seed_roles t). set (t2 := Seed.seed_sensors t1).
  destruct (seed_sensors_spec t1) as (Er2 & _ & Eu2 & _).
  fold t2 in Er2, Eu2.
  destruct (seed_insert_roles
              (filter (λ r, r ∉ Seed.Role.name <$> Seed.roles t)
                      Seed.default_roles) t)
    as (_ & _ & _ & _ & Eu1 & _).
  assert (Et1 : t1 = foldl Seed.insert_role t
                  (filter (λ r, r ∉ Seed.Role.name <$> Seed.roles t)
                          Seed.default_roles)).
  { unfold t1, Seed.seed_roles. by rewrite seed_added_is_filter. }
  rewrite <- Et1 in Eu1.
  assert (Hadmin : is_Some (Seed.first_role "admin" t2)).
  { destruct (Seed.first_role "admin" t2) eqn:E; [done|].
    apply seed_first_role_None in E. exfalso. apply E. rewrite Er2.
    apply seed_roles_complete. unfold Seed.default_roles. by left. }
  destruct Hadmin as [r Hr]. exists r.
  assert (Hu2 : Seed.first_user Seed.admin_email t2 = None).
  { unfold Seed.first_user. by rewrite Eu2, Eu1. }
  unfold Seed.seed_admin. rewrite Hu2, Hr. simpl.
  eexists. split; [exact Hr|]. rewrite Eu2, Eu1. by split_and!.
Qed.

(** ** Instances of the further properties *)

Lemma new_manager_absent (c : WebSocket) : absent new_manager c.
Proof.
  repeat split; try done; intros (k & s & Hl & _); simpl in Hl;
    by rewrite lookup_empty in Hl.
Qed.

Lemma register_absent (c websocket : WebSocket) (user_id : Z) (role : string)
    (m : ConnectionManager) :
  absent m c → c ≠ websocket → absent (register websocket user_id role m) c.
Proof.
  intros (Hu & Hr & Hact & Hrole & Hch) Hne. unfold absent. simpl.
  split; [by rewrite lookup_insert_ne|]. split; [by rewrite lookup_insert_ne|].
  split; [|split; [|done]].
  - intros [k Hk]%index_holds_mem. apply Hact, index_holds_mem. exists k.
    by rewrite index_mem_add_other in Hk.
  - intros [k Hk]%index_holds_mem. apply Hrole, index_holds_mem. exists k.
    by rewrite index_mem_add_other in Hk.
Qed.

Lemma one_ops_absent : absent one_ops 2.
Proof. apply register_absent; [apply new_manager_absent | done]. Qed.

Lemma one_ops_no_empty_entry : no_empty_entry one_ops.
Proof.
  apply (apply_ops_no_empty_entry [OpRegister 1 7 "ops"] new_manager).
  apply new_manager_no_empty_entry.
Qed.

Lemma register_registers_only_it_witness :
  same_entries 1 one_ops (register 2 8 "ops" one_ops).
Proof.
  destruct (register_registers_only_it 2 8 "ops" one_ops)
    as (_ & _ & _ & _ & _ & Hothers).
  apply Hothers. discriminate.
Defined.

Lemma register_then_disconnect_witness :
  disconnect 2 (register 2 8 "ops" one_ops) = one_ops.
Proof.
  apply (register_then_disconnect 2 8 "ops" one_ops).
  - apply one_ops_absent.
  - apply one_ops_no_empty_entry.
  - discriminate.
  - discriminate.
Defined.

Lemma unsubscribe_undoes_subscribe_witness :
  unsubscribe_from_channel 1 "alerts" (subscribe_to_channel 1 "alerts" one_ops)
  = one_ops ∧
  unsubscribe_from_channel 1 "alerts" one_ops = one_ops.
Proof.
  apply (unsubscribe_undoes_subscribe 1 "alerts" one_ops).
  - reflexivity.
  - discriminate.
Defined.

Lemma stats_have_no_empty_role_witness :
  Stats.connections_by_role
    (get_connection_stats (apply_ops new_manager ops_history)) !! "ops"
  = Some 2%nat ∧
  (0 < 2)%nat.
Proof.
  assert (H : Stats.connections_by_role
                (get_connection_stats (apply_ops new_manager ops_history))
                !! "ops" = Some 2%nat) by (vm_compute; reflexivity).
  split; [exact H|].
  destruct (stats_have_no_empty_role ops_history "ops" 2) as [Hpos _].
  exact (Hpos H).
Defined.

Lemma total_connections_counts_broadcast_targets_witness :
  Stats.total_connections
    (get_connection_stats (apply_ops new_manager ops_history))
  = size (all_websockets (apply_ops new_manager ops_history)).
Proof.
  apply (total_connections_counts_broadcast_targets ops_history).
  repeat split; vm_compute; congruence.
Defined.

Lemma deliver_to_nobody_witness :
  deliver system_health (ToUser 99) ops_world = (Ok tt, ops_world).
Proof.
  apply (deliver_to_nobody (ToUser 99) system_health ops_world).
  reflexivity.
Defined.

Lemma deliver_once_each_witness :
  unregistered
    (manager (after (deliver system_health (ToRole "ops")) ops_world)) 2 ∧
  same_entries 1 (manager ops_world)
    (manager (after (deliver system_health (ToRole "ops")) ops_world)).
Proof.
  destruct (deliver_once_each (ToRole "ops") system_health ops_world)
    as (_ & _ & Hfailed & Hothers & _).
  split.
  - apply Hfailed; vm_compute; reflexivity.
  - apply Hothers. intros [_ Hraises]. discriminate Hraises.
Defined.

Lemma send_personal_message_isolated_witness :
  same_entries 1 (manager ops_world)
    (manager (after (send_personal_message system_health 2) ops_world)).
Proof.
  destruct (send_personal_message_isolated system_health 2 ops_world)
    as (_ & _ & _ & Hothers & _).
  apply Hothers. discriminate.
Defined.

Lemma connect_failures_witness :
  connect 1 7 "ops" nobody_accepted
  = (Raise (RuntimeError "accept"), nobody_accepted) ∧
  outcome (connect 2 8 "ops") two_calls_in = Ok tt ∧
  manager (after (connect 2 8 "ops") two_calls_in) = manager two_calls_in.
Proof.
  split.
  - destruct (connect_failures 1 7 "ops" nobody_accepted) as [Hrefused _].
    apply Hrefused. reflexivity.
  - destruct (connect_failures 2 8 "ops" two_calls_in) as [_ Hlost].
    destruct (Hlost eq_refl eq_refl) as (Hok & _ & Hundone).
    split; [exact Hok|]. apply Hundone.
    + apply one_ops_absent.
    + apply one_ops_no_empty_entry.
    + discriminate.
    + discriminate.
Defined.

Lemma ping_is_answered_with_pong_witness :
  handle_websocket_message (λ _, "") no_handler no_handler no_handler
    no_sender no_sender (λ _, ret tt) 1 ping_message blank_world
  = send_personal_message (pong (quiet_clock 0)) 1 (tick blank_world) ∧
  events_of
    (handle_websocket_message (λ _, "") no_handler no_handler no_handler
       no_sender no_sender (λ _, ret tt) 1 ping_message) blank_world
  = [EvSent 1 (pong (quiet_clock 0))] ∧
  db (after
        (handle_websocket_message (λ _, "") no_handler no_handler no_handler
           no_sender no_sender (λ _, ret tt) 1 ping_message) blank_world)
  = db blank_world.
Proof.
  apply (ping_is_answered_with_pong (λ _, "") no_handler no_handler
           no_handler no_sender no_sender (λ _, ret tt)
           1 ping_message blank_world).
  reflexivity.
Defined.

Lemma unknown_data_type_is_ignored_witness :
  handle_websocket_message (λ _, "") no_handler no_handler no_handler
    no_sender no_sender (λ _, ret tt) 1 weather_request blank_world
  = (Ok tt, blank_world).
Proof.
  apply (unknown_data_type_is_ignored (λ _, "") no_handler no_handler
           no_handler no_sender no_sender (λ _, ret tt)
           1 weather_request blank_world).
  - reflexivity.
  - intros s Hin Hs. vm_compute in Hs. injection Hs as <-.
    repeat (apply elem_of_cons in Hin as [Hin|Hin]; [discriminate Hin|]).
    by apply elem_of_nil in Hin.
Defined.

Lemma acknowledge_without_target_is_silent_witness :
  handle_websocket_message (λ _, "") no_handler no_handler no_handler
    no_sender no_sender (λ _, ret tt) 1 acknowledge_alert_9 resolved_world
  = (Ok tt, resolved_world).
Proof.
  apply (acknowledge_without_target_is_silent (λ _, "") no_handler
           no_handler no_handler no_sender no_sender (λ _, ret tt)
           1 acknowledge_alert_9 resolved_world).
  - reflexivity.
  - right. split; [reflexivity|]. exists "ALERT-9". split; reflexivity.
Defined.

Lemma acknowledge_with_failing_store_witness :
  handle_websocket_message (λ _, "") no_handler no_handler no_handler
    no_sender no_sender (λ _, ret tt) 1 acknowledge_alert_1 broken_store_world
  = send_personal_message (error_message "Internal server error") 1
                          broken_store_world ∧
  events_of
    (handle_websocket_message (λ _, "") no_handler no_handler no_handler
       no_sender no_sender (λ _, ret tt) 1 acknowledge_alert_1)
    broken_store_world
  = [EvSent 1 (error_message "Internal server error")] ∧
  db (after
        (handle_websocket_message (λ _, "") no_handler no_handler no_handler
           no_sender no_sender (λ _, ret tt) 1 acknowledge_alert_1)
        broken_store_world)
  = db broken_store_world.
Proof.
  apply (acknowledge_with_failing_store (λ _, "") no_handler no_handler
           no_handler no_sender no_sender (λ _, ret tt)
           1 acknowledge_alert_1 broken_store_world).
  - reflexivity.
  - vm_compute. reflexivity.
  - reflexivity.
Defined.

Lemma acknowledge_again_overwrites_witness :
  alerts (db (after (_handle_acknowledge_alert 2 acknowledge_with_notes)
                    (after (_handle_acknowledge_alert 1 acknowledge_alert_1)
                           two_admins_world)))
  = [acknowledged (acknowledged resolved_alert 7 (quiet_clock 0) (JStr ""))
       8 (quiet_clock 2) (JStr "on my way")] ∧
  alert_actions
    (db (after (_handle_acknowledge_alert 2 acknowledge_with_notes)
               (after (_handle_acknowledge_alert 1 acknowledge_alert_1)
                      two_admins_world)))
  = [acknowledge_action resolved_alert 7 (JStr "");
     acknowledge_action resolved_alert 8 (JStr "on my way")].
Proof.
  apply (acknowledge_again_overwrites 1 2 acknowledge_alert_1
           acknowledge_with_notes two_admins_world 7 8 "ALERT-1" 0
           resolved_alert).
  - vm_compute. reflexivity.
  - discriminate.
  - vm_compute. reflexivity.
  - discriminate.
  - reflexivity.
  - reflexivity.
  - reflexivity.
  - reflexivity.
  - intros x m. reflexivity.
Defined.

Lemma handle_subscribe_strings_witness :
  _handle_subscribe 1 subscribe_two
  = Some (walk_channels (subscribe_to_channel 1)
            (subscription_confirmed (JList [JStr "alerts"; JStr "sensor_42"]))
            1 (["alerts"; "sensor_42"], None)) ∧
  events_of (walk_channels (subscribe_to_channel 1)
               (subscription_confirmed
                  (JList [JStr "alerts"; JStr "sensor_42"]))
               1 (["alerts"; "sensor_42"], None)) one_ops_world
  = [EvSent 1 (subscription_confirmed
                 (JList [JStr "alerts"; JStr "sensor_42"]) (quiet_clock 0))] ∧
  manager (after (walk_channels (subscribe_to_channel 1)
                    (subscription_confirmed
                       (JList [JStr "alerts"; JStr "sensor_42"]))
                    1 (["alerts"; "sensor_42"], None)) one_ops_world)
  = subscribe_all 1 ["alerts"; "sensor_42"] one_ops.
Proof.
  destruct (handle_subscribe_strings 1 subscribe_two one_ops_world
              ["alerts"; "sensor_42"] eq_refl)
    as (Hrun & _ & Hev & Hm & _).
  split; [exact Hrun|]. split; [exact Hev | exact Hm].
Defined.

Lemma handle_unsubscribe_strings_witness :
  _handle_unsubscribe 1 unsubscribe_sensor_42
  = Some (walk_channels (unsubscribe_from_channel 1)
            (unsubscription_confirmed (JList [JStr "sensor_42"]))
            1 (["sensor_42"], None)) ∧
  events_of (walk_channels (unsubscribe_from_channel 1)
               (unsubscription_confirmed (JList [JStr "sensor_42"]))
               1 (["sensor_42"], None)) sensor_42_world
  = [EvSent 1 (unsubscription_confirmed (JList [JStr "sensor_42"])
                 (clock sensor_42_world (ticks sensor_42_world)))] ∧
  manager (after (walk_channels (unsubscribe_from_channel 1)
                    (unsubscription_confirmed (JList [JStr "sensor_42"]))
                    1 (["sensor_42"], None)) sensor_42_world)
  = unsubscribe_all 1 ["sensor_42"] (manager sensor_42_world).
Proof.
  destruct (handle_unsubscribe_strings 1 unsubscribe_sensor_42
              sensor_42_world ["sensor_42"] eq_refl)
    as (Hrun & _ & Hev & Hm & _).
  split; [exact Hrun|]. split; [exact Hev | exact Hm].
Defined.

Lemma handle_subscribe_stops_midway_witness :
  (∃ run, _handle_subscribe 1 subscribe_nested = Some run ∧
          run one_ops_world
          = (Raise (TypeError "unhashable type"),
             with_manager (subscribe_all 1 ["alerts"] one_ops)
                          one_ops_world)) ∧
  (∃ run, _handle_subscribe 1 subscribe_number = Some run ∧
          run one_ops_world
          = (Raise (TypeError "object is not iterable"), one_ops_world)).
Proof.
  split.
  - destruct (handle_subscribe_stops_midway 1 subscribe_nested one_ops_world)
      as [Hmid _].
    apply (Hmid ["alerts"] (JList []) [JStr "sensor_42"] eq_refl I).
  - destruct (handle_subscribe_stops_midway 1 subscribe_number one_ops_world)
      as [_ Hfirst].
    apply Hfirst. exact I.
Defined.

Lemma new_alert_routing_witness :
  events_to 1 (events_of (broadcast_new_alert active_alert traffic_jam)
                         control_room)
  = [EvSent 1 (new_alert active_alert traffic_jam (quiet_clock 0));
     EvSent 1 (new_alert active_alert traffic_jam (quiet_clock 0))] ∧
  events_to 2 (events_of (broadcast_new_alert active_alert traffic_jam)
                         control_room)
  = [EvSent 2 (new_alert active_alert traffic_jam (quiet_clock 0))].
Proof.
  split.
  - destruct (new_alert_routing active_alert traffic_jam control_room 1
                eq_refl) as [_ Hev].
    etrans; [exact Hev|]. vm_compute. reflexivity.
  - destruct (new_alert_routing active_alert traffic_jam control_room 2
                eq_refl) as [_ Hev].
    etrans; [exact Hev|]. vm_compute. reflexivity.
Defined.

Lemma every_reading_in_its_hour_witness :
  ∃ b, b ∈ time_series_of three_readings ∧
       timestamp b = strftime_hour (ts (reading 42 3 1704106200)).
Proof.
  destruct (every_reading_in_its_hour three_readings) as [Hbucket _].
  apply Hbucket. right. left.
Defined.


Lemma seed_only_adds_witness :
  NoDup (Seed.Role.name
           <$> Seed.roles
                 (Seed.seed_demo_user_if_enabled true demo_hash small_town)) ∧
  Seed.sensors (Seed.seed_demo_user_if_enabled true demo_hash small_town)
  = Seed.sensors small_town.
Proof.
  destruct (seed_only_adds demo_hash small_town)
    as (_ & _ & _ & _ & Hdistinct & Hsensors).
  split.
  - apply Hdistinct. apply NoDup_singleton.
  - apply Hsensors. discriminate.
Defined.

Lemma seed_admin_gets_admin_role_witness :
  ∃ r u,
    Seed.first_role "admin"
      (Seed.seed_demo_user_if_enabled true demo_hash small_town) = Some r ∧
    Seed.users (Seed.seed_demo_user_if_enabled true demo_hash small_town)
    = Seed.users small_town ++ [u] ∧
    Seed.User.email u = Seed.admin_email ∧
    Seed.User.password_hash u = demo_hash "admin123" ∧
    Seed.User.role_id u = Some (Seed.Role.id r).
Proof.
  apply (seed_admin_gets_admin_role demo_hash small_town). reflexivity.
Defined.
